(** * Clouds with OpenGL and GLFW: a shallow embedding of [src/main.c]

    The program has three pieces of code:

    - the host program ([compile_shader], [main], the [vertices] array),
      written in C against GLFW, GLEW and OpenGL;
    - the vertex shader, a GLSL pass-through;
    - the fragment shader, GLSL, with [smooth_noise] and its [main].

    The host program is embedded as a state-passing program over a [world]
    that records every library call in order, what was written to standard
    error, and how often the window was polled.  What the libraries answer is
    given by a [driver], about which nothing is assumed.  The host's [float]
    is IEEE 754 binary32, taken from the Standard Library's [SpecFloat].

    GLSL 3.30 fixes neither the precision of its arithmetic nor that of
    [sin], so the shaders are embedded with their exact meaning over the
    real numbers: [floor], [fract], [smoothstep], [mix] and [dot] are the
    functions the GLSL specification defines, decimal literals denote
    themselves. *)

From Stdlib Require Import ZArith NArith List String Ascii Bool Lia.
From Stdlib Require Import Reals Lra.
From Stdlib Require Import Floats.SpecFloat.
Import ListNotations.

(* ===================================================================== *)
(** * Part I: definitions                                                 *)
(* ===================================================================== *)

(** ** The C type [float]: IEEE 754 binary32 *)

Module F32.

Definition prec : Z := 24.
Definition emax : Z := 128.

Definition float : Type := spec_float.

Definition add : float -> float -> float := SFadd prec emax.
Definition mul : float -> float -> float := SFmul prec emax.
Definition div : float -> float -> float := SFdiv prec emax.

(** Conversion of an integer, rounding to nearest even. *)
Definition of_Z (z : Z) : float := binary_normalize prec emax z 0 false.

(** The literals of [main.c].  [0.02f] is the binary32 number nearest to
    2/100: both operands of the division are exact and the division rounds
    correctly. *)
Definition zero : float := S754_zero false.          (* 0.0f *)
Definition one : float := of_Z 1.                    (* 1.0f *)
Definition neg_one : float := of_Z (-1).             (* -1.0f *)
Definition lit_0_02 : float := div (of_Z 2) (of_Z 100).   (* 0.02f *)

(** [x == 0.0f] in C: true of both signed zeros. *)
Definition is_zero (x : float) : bool :=
  match x with
  | S754_zero _ => true
  | _ => false
  end.

(** A finite number above zero, with an exponent a binary32 can have. *)
Definition is_pos_finite (x : float) : bool :=
  match x with
  | S754_finite false _ e => (emin prec emax <=? e)%Z
  | _ => false
  end.

(** The real number a float stands for (0 for infinities and NaN). *)
Definition pow2R (e : Z) : R :=
  match e with
  | Z0 => 1%R
  | Zpos p => IZR (Z.pow_pos 2 p)
  | Zneg p => (/ IZR (Z.pow_pos 2 p))%R
  end.

Definition to_R (x : float) : R :=
  match x with
  | S754_finite s m e => (IZR (cond_Zopp s (Zpos m)) * pow2R e)%R
  | _ => 0%R
  end.

End F32.

(** ** GLSL: vectors and the built-in functions the shaders call *)

Module GLSL.

Local Open Scope R_scope.

Record vec2 : Type := mkvec2 { vx : R; vy : R }.
Record vec3 : Type := mkvec3 { v3r : R; v3g : R; v3b : R }.
Record vec4 : Type := mkvec4 { v4r : R; v4g : R; v4b : R; v4a : R }.

(** [vec2(s)], [vec3(s)]: every component is [s]. *)
Definition vec2_of (s : R) : vec2 := mkvec2 s s.
Definition vec3_of (s : R) : vec3 := mkvec3 s s s.
(** [vec4(v, a)], [vec4(v, z, w)]. *)
Definition vec4_of3 (v : vec3) (a : R) : vec4 := mkvec4 (v3r v) (v3g v) (v3b v) a.
Definition vec4_of2 (v : vec2) (z w : R) : vec4 := mkvec4 (vx v) (vy v) z w.

(** [v + w], [v * s] and [v - s]: a scalar operand acts on every component. *)
Definition vadd (v w : vec2) : vec2 := mkvec2 (vx v + vx w) (vy v + vy w).
Definition vmul_s (v : vec2) (s : R) : vec2 := mkvec2 (vx v * s) (vy v * s).
Definition vsub_s (v : vec2) (s : R) : vec2 := mkvec2 (vx v - s) (vy v - s).

(** [floor(x)]: the nearest integer not above [x]; [fract(x) = x - floor(x)]. *)
Definition floor (x : R) : R := IZR (Int_part x).
Definition fract (x : R) : R := x - floor x.
Definition floor2 (v : vec2) : vec2 := mkvec2 (floor (vx v)) (floor (vy v)).
Definition fract2 (v : vec2) : vec2 := mkvec2 (fract (vx v)) (fract (vy v)).

(** [clamp(x, lo, hi) = min(max(x, lo), hi)]. *)
Definition clamp (x lo hi : R) : R := Rmin (Rmax x lo) hi.

(** [smoothstep(edge0, edge1, x)]: with [t = clamp((x-edge0)/(edge1-edge0), 0, 1)],
    the Hermite polynomial [t*t*(3 - 2*t)]. *)
Definition smoothstep (edge0 edge1 x : R) : R :=
  let t := clamp ((x - edge0) / (edge1 - edge0)) 0 1 in
  t * t * (3 - 2 * t).
Definition smoothstep2 (edge0 edge1 x : vec2) : vec2 :=
  mkvec2 (smoothstep (vx edge0) (vx edge1) (vx x))
         (smoothstep (vy edge0) (vy edge1) (vy x)).

(** [mix(x, y, a) = x*(1-a) + y*a]; on [vec3] with a scalar weight. *)
Definition mix (x y a : R) : R := x * (1 - a) + y * a.
Definition mix3 (x y : vec3) (a : R) : vec3 :=
  mkvec3 (mix (v3r x) (v3r y) a) (mix (v3g x) (v3g y) a) (mix (v3b x) (v3b y) a).

Definition dot (v w : vec2) : R := vx v * vx w + vy v * vy w.

End GLSL.

(** ** The vertex shader ([vertex_shader_source]) *)

Module Vert.
Import GLSL.
Local Open Scope R_scope.

Record globals : Type := mkglobals {
  in_position : vec2;      (* layout(location = 0) in *)
  in_tex_coord : vec2;     (* layout(location = 1) in *)
  tex_coord : vec2;        (* out *)
  gl_Position : vec4       (* built-in output *)
}.

Definition main (g : globals) : globals :=
  let g := mkglobals (in_position g) (in_tex_coord g) (tex_coord g)
                     (vec4_of2 (in_position g) 0.0 1.0) in
  mkglobals (in_position g) (in_tex_coord g) (in_tex_coord g) (gl_Position g).

End Vert.

(** ** The fragment shader ([fragment_shader_source]) *)

Module Frag.
Import GLSL.
Local Open Scope R_scope.

Record globals : Type := mkglobals {
  tex_coord : vec2;        (* in *)
  cloud_shift : R;         (* uniform *)
  frag_color : vec4        (* out *)
}.

Definition smooth_noise (st : vec2) : R :=
  let i := floor2 st in
  let f := smoothstep2 (vec2_of 0.0) (vec2_of 1.0) (fract2 st) in
  let a := dot i (mkvec2 1.0 57.0) + 1.0 in
  let b := dot (vadd i (mkvec2 1.0 0.0)) (mkvec2 1.0 57.0) + 1.0 in
  let c := dot (vadd i (mkvec2 0.0 1.0)) (mkvec2 1.0 57.0) + 1.0 in
  let d := dot (vadd i (mkvec2 1.0 1.0)) (mkvec2 1.0 57.0) + 1.0 in
  let result :=
    mix (mix (fract (sin a * 43758.5453)) (fract (sin b * 43758.5453)) (vx f))
        (mix (fract (sin c * 43758.5453)) (fract (sin d * 43758.5453)) (vx f))
        (vy f) in
  result.

(** The local [st] of [main] after [st.x += cloud_shift * 0.15]. *)
Definition main_st (tex_coord : vec2) (cloud_shift : R) : vec2 :=
  let st := vmul_s tex_coord 5.0 in
  mkvec2 (vx st + cloud_shift * 0.15) (vy st).

(** The arguments of the three calls of [smooth_noise] in [main]. *)
Definition octave0_coord (tex_coord : vec2) (cloud_shift : R) : vec2 :=
  main_st tex_coord cloud_shift.
Definition octave1_coord (tex_coord : vec2) (cloud_shift : R) : vec2 :=
  vsub_s (vmul_s (main_st tex_coord cloud_shift) 2.0) (cloud_shift * 0.05).
Definition octave2_coord (tex_coord : vec2) (cloud_shift : R) : vec2 :=
  vsub_s (vmul_s (main_st tex_coord cloud_shift) 4.0) (cloud_shift * 0.1).

(** The local [n] of [main] after [n += n1 + n2]. *)
Definition main_n (tex_coord : vec2) (cloud_shift : R) : R :=
  let n := smooth_noise (octave0_coord tex_coord cloud_shift) in
  let n1 := smooth_noise (octave1_coord tex_coord cloud_shift) * 0.5 in
  let n2 := smooth_noise (octave2_coord tex_coord cloud_shift) * 0.25 in
  n + (n1 + n2).

Definition sky_color : vec3 := mkvec3 0.602 0.808 0.980.
Definition cloud_color : vec3 := vec3_of 0.97.

Definition main (g : globals) : globals :=
  let n := main_n (tex_coord g) (cloud_shift g) in
  let cloud := smoothstep 0.3 1.0 n in
  let final_color := mix3 cloud_color sky_color cloud in
  mkglobals (tex_coord g) (cloud_shift g) (vec4_of3 final_color 1.0).

End Frag.

(** ** The host program ([main.c]) *)

Module Host.

Local Open Scope string_scope.
Local Open Scope Z_scope.

Definition GLuint : Type := Z.
Definition GLint : Type := Z.
Definition GLsizei : Type := Z.
(** A [GLFWwindow*]; 0 is [NULL]. *)
Definition GLFWwindow_ptr : Type := Z.

(** The enumerators the program passes or compares with. *)
Inductive shader_type : Type := GL_VERTEX_SHADER | GL_FRAGMENT_SHADER.
Inductive shader_pname : Type := GL_COMPILE_STATUS.
Inductive program_pname : Type := GL_LINK_STATUS.
Inductive buffer_target : Type := GL_ARRAY_BUFFER.
Inductive buffer_usage : Type := GL_STATIC_DRAW.
Inductive attrib_type : Type := GL_FLOAT.
Inductive clear_mask : Type := GL_COLOR_BUFFER_BIT.
Inductive draw_mode : Type := GL_TRIANGLES.
Inductive glew_result : Type := GLEW_OK | GLEW_ERROR (code : Z).
Definition GL_TRUE : bool := true.
Definition GL_FALSE : bool := false.

(** [x != GLEW_OK]. *)
Definition glew_neq_ok (r : glew_result) : bool :=
  match r with
  | GLEW_OK => false
  | GLEW_ERROR _ => true
  end.

(** C's [!x] on an integer or a pointer. *)
Definition c_not (x : Z) : bool := x =? 0.

Definition sizeof_float : Z := 4.

Definition vertex_shader_source : string :=
"#version 330 core

layout(location = 0) in vec2 in_position;
layout(location = 1) in vec2 in_tex_coord;
out vec2 tex_coord;

void main()
{
    gl_Position = vec4(in_position, 0.0, 1.0);
    tex_coord = in_tex_coord;
}
".

Definition fragment_shader_source : string :=
"#version 330 core
in vec2 tex_coord;
out vec4 frag_color;
uniform float cloud_shift;

float smooth_noise(vec2 st) {
    vec2 i = floor(st);
    vec2 f = smoothstep(vec2(0.0), vec2(1.0), fract(st));
    float a = dot(i, vec2(1.0, 57.0)) + 1.0;
    float b = dot(i + vec2(1.0, 0.0), vec2(1.0, 57.0)) + 1.0;
    float c = dot(i + vec2(0.0, 1.0), vec2(1.0, 57.0)) + 1.0;
    float d = dot(i + vec2(1.0, 1.0), vec2(1.0, 57.0)) + 1.0;
    float result = mix(mix(fract(sin(a) * 43758.5453), fract(sin(b) * 43758.5453), f.x),
                       mix(fract(sin(c) * 43758.5453), fract(sin(d) * 43758.5453), f.x), f.y);
    return result;
}

void main() {
    vec2 st = tex_coord * 5.0;
    st.x += cloud_shift * 0.15;
    float n = smooth_noise(st);
    float n1 = smooth_noise(st * 2.0 - cloud_shift * 0.05) * 0.5;
    float n2 = smooth_noise(st * 4.0 - cloud_shift * 0.1) * 0.25;
    n += n1 + n2;
    float cloud = smoothstep(0.3, 1.0, n);
    vec3 sky_color = vec3(0.602, 0.808, 0.980);
    vec3 cloud_color = vec3(0.97);
    vec3 final_color = mix(cloud_color, sky_color, cloud);
    frag_color = vec4(final_color, 1.0);
}
".

(** Vertex data for a full-screen quad: per vertex a position and a texture
    coordinate. *)
Definition vertices : list F32.float :=
  [ F32.neg_one; F32.one;     F32.zero; F32.one;
    F32.neg_one; F32.neg_one; F32.zero; F32.zero;
    F32.one;     F32.neg_one; F32.one;  F32.zero;

    F32.neg_one; F32.one;     F32.zero; F32.one;
    F32.one;     F32.neg_one; F32.one;  F32.zero;
    F32.one;     F32.one;     F32.one;  F32.one ].

(** [sizeof(vertices)]. *)
Definition sizeof_vertices : Z := Z.of_nat (List.length vertices) * sizeof_float.

(** *** Library calls, in the order the program makes them *)

Inductive call : Type :=
| GlfwInit
| GlfwCreateWindow (width height : Z) (title : string)
| GlfwTerminate
| GlfwMakeContextCurrent (window : GLFWwindow_ptr)
| GlewExperimental (value : bool)
| GlewInit
| GlCreateShader (ty : shader_type)
| GlShaderSource (shader : GLuint) (count : GLsizei) (source : string)
| GlCompileShader (shader : GLuint)
| GlGetShaderiv (shader : GLuint) (pname : shader_pname)
| GlGetShaderInfoLog (shader : GLuint) (buf_size : GLsizei)
| GlCreateProgram
| GlAttachShader (program shader : GLuint)
| GlLinkProgram (program : GLuint)
| GlGetProgramiv (program : GLuint) (pname : program_pname)
| GlGetProgramInfoLog (program : GLuint) (buf_size : GLsizei)
| GlGetUniformLocation (program : GLuint) (name : string)
| GlDeleteShader (shader : GLuint)
| GlGenVertexArrays (n : GLsizei)
| GlGenBuffers (n : GLsizei)
| GlBindVertexArray (array : GLuint)
| GlBindBuffer (target : buffer_target) (buffer : GLuint)
| GlBufferData (target : buffer_target) (size : Z) (data : list F32.float)
               (usage : buffer_usage)
| GlVertexAttribPointer (index : GLuint) (size : GLint) (ty : attrib_type)
                        (normalized : bool) (stride : GLsizei) (pointer : Z)
| GlEnableVertexAttribArray (index : GLuint)
| GlfwWindowShouldClose (window : GLFWwindow_ptr)
| GlClear (mask : clear_mask)
| GlUseProgram (program : GLuint)
| GlUniform1f (location : GLint) (v0 : F32.float)
| GlDrawArrays (mode : draw_mode) (first : GLint) (count : GLsizei)
| GlfwSwapBuffers (window : GLFWwindow_ptr)
| GlfwPollEvents
| GlDeleteVertexArrays (n : GLsizei) (array : GLuint)
| GlDeleteBuffers (n : GLsizei) (buffer : GLuint)
| GlDeleteProgram (program : GLuint).

(** What the libraries answer.  Nothing is assumed about it. *)
Record driver : Type := mkdriver {
  glfwInit_ret : Z;                              (* GLFW_TRUE or GLFW_FALSE (0) *)
  glfwCreateWindow_ret : GLFWwindow_ptr;         (* NULL on failure *)
  glewInit_ret : glew_result;
  glCreateShader_ret : shader_type -> GLuint;
  compile_status : GLuint -> GLint;              (* of a shader object *)
  shader_info_log : GLuint -> string;
  glCreateProgram_ret : GLuint;
  link_status : GLuint -> GLint;                 (* of a program object *)
  program_info_log : GLuint -> string;
  uniform_location : GLuint -> string -> GLint;
  glGenVertexArrays_ret : GLuint;
  glGenBuffers_ret : GLuint;
  window_should_close : nat -> Z                 (* the answer to poll number k *)
}.

Record world : Type := mkworld {
  trace : list call;       (* the calls made so far, oldest first *)
  stderr : string;         (* what was written to standard error *)
  polls : nat              (* how often the close flag was read *)
}.

Definition world0 : world := mkworld [] "" 0.

(** *** The monad of the host program *)

Definition M (A : Type) : Type := driver -> world -> A * world.

Definition ret {A : Type} (a : A) : M A := fun _ w => (a, w).

Definition bind {A B : Type} (m : M A) (k : A -> M B) : M B :=
  fun d w => let (a, w') := m d w in k a d w'.

Declare Scope host_scope.
Delimit Scope host_scope with host.
Notation "x <- m ;; k" := (bind m (fun x => k))
  (at level 61, m at next level, right associativity) : host_scope.
Notation "m ;; k" := (bind m (fun _ => k))
  (at level 61, right associativity) : host_scope.
Local Open Scope host_scope.

(** A call whose answer the [driver] gives. *)
Definition ask {A : Type} (c : call) (answer : driver -> A) : M A :=
  fun d w => (answer d, mkworld (trace w ++ [c]) (stderr w) (polls w)).

(** A call without a result. *)
Definition emit (c : call) : M unit := ask c (fun _ => tt).

(** [fprintf(stderr, ...)] with the text already formatted. *)
Definition fprintf_stderr (text : string) : M unit :=
  fun _ w => (tt, mkworld (trace w) (stderr w ++ text)%string (polls w)).

(** What [glGet*InfoLog] stores in a buffer of [buf_size] characters: the
    log cut to [buf_size - 1] characters, then the terminator. *)
Definition info_log_buffer (buf_size : Z) (log : string) : string :=
  substring 0 (Z.to_nat (buf_size - 1)) log.

Definition glfwInit : M Z := ask GlfwInit glfwInit_ret.
Definition glfwCreateWindow (width height : Z) (title : string) : M GLFWwindow_ptr :=
  ask (GlfwCreateWindow width height title) glfwCreateWindow_ret.
Definition glfwTerminate : M unit := emit GlfwTerminate.
Definition glfwMakeContextCurrent (window : GLFWwindow_ptr) : M unit :=
  emit (GlfwMakeContextCurrent window).
Definition set_glewExperimental (value : bool) : M unit := emit (GlewExperimental value).
Definition glewInit : M glew_result := ask GlewInit glewInit_ret.
Definition glCreateShader (ty : shader_type) : M GLuint :=
  ask (GlCreateShader ty) (fun d => glCreateShader_ret d ty).
Definition glShaderSource (shader : GLuint) (count : GLsizei) (source : string) : M unit :=
  emit (GlShaderSource shader count source).
Definition glCompileShader (shader : GLuint) : M unit := emit (GlCompileShader shader).
Definition glGetShaderiv (shader : GLuint) (pname : shader_pname) : M GLint :=
  ask (GlGetShaderiv shader pname) (fun d => compile_status d shader).
Definition glGetShaderInfoLog (shader : GLuint) (buf_size : GLsizei) : M string :=
  ask (GlGetShaderInfoLog shader buf_size)
      (fun d => info_log_buffer buf_size (shader_info_log d shader)).
Definition glCreateProgram : M GLuint := ask GlCreateProgram glCreateProgram_ret.
Definition glAttachShader (program shader : GLuint) : M unit :=
  emit (GlAttachShader program shader).
Definition glLinkProgram (program : GLuint) : M unit := emit (GlLinkProgram program).
Definition glGetProgramiv (program : GLuint) (pname : program_pname) : M GLint :=
  ask (GlGetProgramiv program pname) (fun d => link_status d program).
Definition glGetProgramInfoLog (program : GLuint) (buf_size : GLsizei) : M string :=
  ask (GlGetProgramInfoLog program buf_size)
      (fun d => info_log_buffer buf_size (program_info_log d program)).
Definition glGetUniformLocation (program : GLuint) (name : string) : M GLint :=
  ask (GlGetUniformLocation program name) (fun d => uniform_location d program name).
Definition glDeleteShader (shader : GLuint) : M unit := emit (GlDeleteShader shader).
Definition glGenVertexArrays (n : GLsizei) : M GLuint :=
  ask (GlGenVertexArrays n) glGenVertexArrays_ret.
Definition glGenBuffers (n : GLsizei) : M GLuint := ask (GlGenBuffers n) glGenBuffers_ret.
Definition glBindVertexArray (array : GLuint) : M unit := emit (GlBindVertexArray array).
Definition glBindBuffer (target : buffer_target) (buffer : GLuint) : M unit :=
  emit (GlBindBuffer target buffer).
Definition glBufferData (target : buffer_target) (size : Z) (data : list F32.float)
  (usage : buffer_usage) : M unit := emit (GlBufferData target size data usage).
Definition glVertexAttribPointer (index : GLuint) (size : GLint) (ty : attrib_type)
  (normalized : bool) (stride : GLsizei) (pointer : Z) : M unit :=
  emit (GlVertexAttribPointer index size ty normalized stride pointer).
Definition glEnableVertexAttribArray (index : GLuint) : M unit :=
  emit (GlEnableVertexAttribArray index).
Definition glfwWindowShouldClose (window : GLFWwindow_ptr) : M Z :=
  fun d w => (window_should_close d (polls w),
              mkworld (trace w ++ [GlfwWindowShouldClose window]) (stderr w) (S (polls w))).
Definition glClear (mask : clear_mask) : M unit := emit (GlClear mask).
Definition glUseProgram (program : GLuint) : M unit := emit (GlUseProgram program).
Definition glUniform1f (location : GLint) (v0 : F32.float) : M unit :=
  emit (GlUniform1f location v0).
Definition glDrawArrays (mode : draw_mode) (first : GLint) (count : GLsizei) : M unit :=
  emit (GlDrawArrays mode first count).
Definition glfwSwapBuffers (window : GLFWwindow_ptr) : M unit := emit (GlfwSwapBuffers window).
Definition glfwPollEvents : M unit := emit GlfwPollEvents.
Definition glDeleteVertexArrays (n : GLsizei) (array : GLuint) : M unit :=
  emit (GlDeleteVertexArrays n array).
Definition glDeleteBuffers (n : GLsizei) (buffer : GLuint) : M unit :=
  emit (GlDeleteBuffers n buffer).
Definition glDeleteProgram (program : GLuint) : M unit := emit (GlDeleteProgram program).

(** *** [compile_shader] *)

Definition newline : string := String (ascii_of_nat 10) EmptyString.

Definition compile_shader (source : string) (shader_type : shader_type) : M GLuint :=
  shader <- glCreateShader shader_type ;;
  let shader_source := source in
  glShaderSource shader 1 shader_source ;;
  glCompileShader shader ;;
  success <- glGetShaderiv shader GL_COMPILE_STATUS ;;
  if c_not success then
    info_log <- glGetShaderInfoLog shader 512 ;;
    fprintf_stderr ("Error compiling shader: " ++ info_log ++ newline)%string ;;
    ret 0
  else
    ret shader.

(** *** [main] *)

(** The render loop, [while (!glfwWindowShouldClose(window)) { ... }].
    [fuel] bounds how often the condition is evaluated; the result is [None]
    when the loop is still running then, and the final [cloud_shift] when
    the loop was left. *)
Fixpoint render_loop (fuel : nat) (window : GLFWwindow_ptr)
  (shader_program : GLuint) (cloud_shift_loc : GLint) (VAO : GLuint)
  (cloud_shift : F32.float) : M (option F32.float) :=
  match fuel with
  | O => ret None
  | S fuel' =>
    close <- glfwWindowShouldClose window ;;
    if c_not close then
      glClear GL_COLOR_BUFFER_BIT ;;
      glUseProgram shader_program ;;
      let cloud_shift := F32.add cloud_shift F32.lit_0_02 in
      glUniform1f cloud_shift_loc cloud_shift ;;
      glBindVertexArray VAO ;;
      glDrawArrays GL_TRIANGLES 0 6 ;;
      glBindVertexArray 0 ;;
      glfwSwapBuffers window ;;
      glfwPollEvents ;;
      render_loop fuel' window shader_program cloud_shift_loc VAO cloud_shift
    else
      ret (Some cloud_shift)
  end.

(** [main] returns its exit code, or [None] when the render loop is still
    running after [fuel] evaluations of its condition. *)
Definition main (fuel : nat) : M (option Z) :=
  init <- glfwInit ;;
  if c_not init then ret (Some (-1)) else
  window <- glfwCreateWindow 1280 960 "Clouds" ;;
  if c_not window then
    glfwTerminate ;;
    ret (Some (-1))
  else
  glfwMakeContextCurrent window ;;
  set_glewExperimental GL_TRUE ;;
  glew <- glewInit ;;
  if glew_neq_ok glew then
    fprintf_stderr ("Failed to initialize GLEW" ++ newline)%string ;;
    ret (Some (-1))
  else
  vertex_shader <- compile_shader vertex_shader_source GL_VERTEX_SHADER ;;
  fragment_shader <- compile_shader fragment_shader_source GL_FRAGMENT_SHADER ;;
  shader_program <- glCreateProgram ;;
  glAttachShader shader_program vertex_shader ;;
  glAttachShader shader_program fragment_shader ;;
  glLinkProgram shader_program ;;
  success <- glGetProgramiv shader_program GL_LINK_STATUS ;;
  (if c_not success then
     info_log <- glGetProgramInfoLog shader_program 512 ;;
     fprintf_stderr ("Error linking shader program: " ++ info_log ++ newline)%string
   else ret tt) ;;
  cloud_shift_loc <- glGetUniformLocation shader_program "cloud_shift" ;;
  glDeleteShader vertex_shader ;;
  glDeleteShader fragment_shader ;;
  VAO <- glGenVertexArrays 1 ;;
  VBO <- glGenBuffers 1 ;;
  glBindVertexArray VAO ;;
  glBindBuffer GL_ARRAY_BUFFER VBO ;;
  glBufferData GL_ARRAY_BUFFER sizeof_vertices vertices GL_STATIC_DRAW ;;
  glVertexAttribPointer 0 2 GL_FLOAT GL_FALSE (4 * sizeof_float) 0 ;;
  glEnableVertexAttribArray 0 ;;
  glVertexAttribPointer 1 2 GL_FLOAT GL_FALSE (4 * sizeof_float) (2 * sizeof_float) ;;
  glEnableVertexAttribArray 1 ;;
  glBindBuffer GL_ARRAY_BUFFER 0 ;;
  glBindVertexArray 0 ;;
  let cloud_shift := F32.zero in
  left <- render_loop fuel window shader_program cloud_shift_loc VAO cloud_shift ;;
  match left with
  | None => ret None
  | Some _ =>
    glDeleteVertexArrays 1 VAO ;;
    glDeleteBuffers 1 VBO ;;
    glDeleteProgram shader_program ;;
    glfwTerminate ;;
    ret (Some 0)
  end.

End Host.

(** ** What the statements speak about *)

(** *** The animation scalar

    [cloud_shift_after k]: [0.0f] after [k] executions of
    [cloud_shift += 0.02f]. *)
Fixpoint cloud_shift_after (k : nat) : F32.float :=
  match k with
  | O => F32.zero
  | S k' => F32.add (cloud_shift_after k') F32.lit_0_02
  end.

(** [cs] after [n] more increments. *)
Fixpoint shift_n (n : nat) (cs : F32.float) : F32.float :=
  match n with
  | O => cs
  | S n' => shift_n n' (F32.add cs F32.lit_0_02)
  end.

(** Above zero: finite and positive, or plus infinity. *)
Definition pos_or_inf (x : F32.float) : Prop :=
  F32.is_pos_finite x = true \/ x = S754_infinity false.

Definition emin32 : Z := emin F32.prec F32.emax.

(** *** Drivers and runs *)

Module Run.
Import Host.
Local Open Scope string_scope.
Local Open Scope Z_scope.

(** GLFW, the window and GLEW all come up. *)
Definition init_ok (d : driver) : bool :=
  negb (c_not (glfwInit_ret d)) && negb (c_not (glfwCreateWindow_ret d))
  && negb (glew_neq_ok (glewInit_ret d)).

(** The close flag is clear at polls [0 .. N-1] and set at poll [N]: the
    close request arrives after [N] frames were drawn. *)
Definition closes_at (d : driver) (N : nat) : bool :=
  forallb (fun k => c_not (window_should_close d k)) (seq 0 N)
  && negb (c_not (window_should_close d N)).

(** How many frames the render loop draws when it starts at poll [p] with
    [fuel], and whether it is left within the fuel. *)
Fixpoint frames_run (d : driver) (fuel p : nat) : nat :=
  match fuel with
  | O => O
  | S fuel' =>
    if c_not (window_should_close d p) then S (frames_run d fuel' (S p)) else O
  end.

Fixpoint loop_exits (d : driver) (fuel p : nat) : bool :=
  match fuel with
  | O => false
  | S fuel' =>
    if c_not (window_should_close d p) then loop_exits d fuel' (S p) else true
  end.

(** The calls of one [compile_shader], its result and its message. *)
Definition compile_calls (d : driver) (source : string) (ty : shader_type) : list call :=
  let shader := glCreateShader_ret d ty in
  [GlCreateShader ty; GlShaderSource shader 1 source; GlCompileShader shader;
   GlGetShaderiv shader GL_COMPILE_STATUS]
  ++ (if c_not (compile_status d shader) then [GlGetShaderInfoLog shader 512] else []).

Definition compile_result (d : driver) (ty : shader_type) : GLuint :=
  let shader := glCreateShader_ret d ty in
  if c_not (compile_status d shader) then 0 else shader.

Definition compile_message (d : driver) (ty : shader_type) : string :=
  let shader := glCreateShader_ret d ty in
  if c_not (compile_status d shader)
  then ("Error compiling shader: "
        ++ info_log_buffer 512 (shader_info_log d shader) ++ newline)%string
  else "".

Definition link_message (d : driver) : string :=
  let program := glCreateProgram_ret d in
  if c_not (link_status d program)
  then ("Error linking shader program: "
        ++ info_log_buffer 512 (program_info_log d program) ++ newline)%string
  else "".

(** The calls of [main] from its start to the render loop. *)
Definition setup_calls (d : driver) : list call :=
  let window := glfwCreateWindow_ret d in
  let program := glCreateProgram_ret d in
  let VAO := glGenVertexArrays_ret d in
  let VBO := glGenBuffers_ret d in
  [GlfwInit; GlfwCreateWindow 1280 960 "Clouds"; GlfwMakeContextCurrent window;
   GlewExperimental true; GlewInit]
  ++ compile_calls d vertex_shader_source GL_VERTEX_SHADER
  ++ compile_calls d fragment_shader_source GL_FRAGMENT_SHADER
  ++ [GlCreateProgram;
      GlAttachShader program (compile_result d GL_VERTEX_SHADER);
      GlAttachShader program (compile_result d GL_FRAGMENT_SHADER);
      GlLinkProgram program; GlGetProgramiv program GL_LINK_STATUS]
  ++ (if c_not (link_status d program) then [GlGetProgramInfoLog program 512] else [])
  ++ [GlGetUniformLocation program "cloud_shift";
      GlDeleteShader (compile_result d GL_VERTEX_SHADER);
      GlDeleteShader (compile_result d GL_FRAGMENT_SHADER);
      GlGenVertexArrays 1; GlGenBuffers 1;
      GlBindVertexArray VAO; GlBindBuffer GL_ARRAY_BUFFER VBO;
      GlBufferData GL_ARRAY_BUFFER 96 vertices GL_STATIC_DRAW;
      GlVertexAttribPointer 0 2 GL_FLOAT false 16 0; GlEnableVertexAttribArray 0;
      GlVertexAttribPointer 1 2 GL_FLOAT false 16 8; GlEnableVertexAttribArray 1;
      GlBindBuffer GL_ARRAY_BUFFER 0; GlBindVertexArray 0].

Definition setup_world (d : driver) : world :=
  mkworld (setup_calls d)
          (compile_message d GL_VERTEX_SHADER ++ compile_message d GL_FRAGMENT_SHADER
           ++ link_message d)%string
          0.

(** The calls of one pass through the loop body, condition included, when
    [cloud_shift] is the value the pass uploads. *)
Definition frame_calls (window : GLFWwindow_ptr) (program : GLuint) (loc : GLint)
  (VAO : GLuint) (cloud_shift : F32.float) : list call :=
  [GlfwWindowShouldClose window; GlClear GL_COLOR_BUFFER_BIT; GlUseProgram program;
   GlUniform1f loc cloud_shift;
   GlBindVertexArray VAO; GlDrawArrays GL_TRIANGLES 0 6;
   GlBindVertexArray 0; GlfwSwapBuffers window; GlfwPollEvents].

(** [n] passes that start with the scalar at [cs]. *)
Fixpoint frames_calls (window : GLFWwindow_ptr) (program : GLuint) (loc : GLint)
  (VAO : GLuint) (n : nat) (cs : F32.float) : list call :=
  match n with
  | O => []
  | S n' =>
    frame_calls window program loc VAO (F32.add cs F32.lit_0_02)
    ++ frames_calls window program loc VAO n' (F32.add cs F32.lit_0_02)
  end.

(** The passes of the loop as [main] runs it under [d]. *)
Definition main_frames (d : driver) (n : nat) : list call :=
  frames_calls (glfwCreateWindow_ret d) (glCreateProgram_ret d)
               (uniform_location d (glCreateProgram_ret d) "cloud_shift")
               (glGenVertexArrays_ret d) n F32.zero.

(** The calls of [main] up to the failure of [glewInit]. *)
Definition glew_failure_calls (d : driver) : list call :=
  [GlfwInit; GlfwCreateWindow 1280 960 "Clouds";
   GlfwMakeContextCurrent (glfwCreateWindow_ret d); GlewExperimental true; GlewInit].

(** The calls of [main] after the loop. *)
Definition shutdown_calls (d : driver) : list call :=
  [GlDeleteVertexArrays 1 (glGenVertexArrays_ret d);
   GlDeleteBuffers 1 (glGenBuffers_ret d);
   GlDeleteProgram (glCreateProgram_ret d);
   GlfwTerminate].

(** *** Observations on a trace *)

(** The values sent with [glUniform1f], in order. *)
Fixpoint uploads (t : list call) : list F32.float :=
  match t with
  | [] => []
  | GlUniform1f _ v :: t' => v :: uploads t'
  | _ :: t' => uploads t'
  end.

(** The number of [glDrawArrays] calls, that is of frames drawn. *)
Fixpoint frames_drawn (t : list call) : nat :=
  match t with
  | [] => O
  | GlDrawArrays _ _ _ :: t' => S (frames_drawn t')
  | _ :: t' => frames_drawn t'
  end.

(** The calls that store into a buffer object; [glBufferData] is the only
    one the program has. *)
Fixpoint buffer_writes (t : list call) : list call :=
  match t with
  | [] => []
  | GlBufferData tg sz data us :: t' => GlBufferData tg sz data us :: buffer_writes t'
  | _ :: t' => buffer_writes t'
  end.

(** The calls made after the close flag was read for the last time. *)
Fixpoint until_poll (rt : list call) : list call :=
  match rt with
  | [] => []
  | GlfwWindowShouldClose _ :: _ => []
  | c :: rt' => c :: until_poll rt'
  end.

Definition after_last_poll (t : list call) : list call := rev (until_poll (rev t)).

(** *** A family of concrete drivers

    [sample_driver init window glew vs fs link frames]: the three
    initialisation answers, the compile status of the vertex and of the
    fragment shader, the link status, and the number of frames after which
    the window is closed.  Shader objects are 1 and 2, the program is 3, the
    vertex array 1, the buffer 2, the uniform sits at location 0. *)
Definition sample_driver (init window : Z) (glew : glew_result)
  (vs fs link : Z) (frames : nat) : driver :=
  mkdriver init window glew
    (fun ty => match ty with GL_VERTEX_SHADER => 1 | GL_FRAGMENT_SHADER => 2 end)
    (fun shader => if shader =? 1 then vs else fs)
    (fun _ => "0:1(1): error: syntax error")
    3
    (fun _ => link)
    (fun _ => "error: linking with uncompiled shader")
    (fun _ _ => 0)
    1 2
    (fun k => if (k <? frames)%nat then 0 else 1).

(** Everything succeeds; the window is closed after [frames] frames. *)
Definition good_driver (frames : nat) : driver :=
  sample_driver 1 4096 GLEW_OK 1 1 1 frames.

End Run.

(** *** The noise function as the specification words it

    Integer cell [i = floor(st)], smoothed fraction
    [f = smoothstep(0, 1, fract(st))], each lattice corner hashed as
    [fract(sin(dot(corner, (1, 57)) + 1) * 43758.5453)], and the bilinear
    interpolation of the four corner values by [f]. *)

Module NoiseRef.
Import GLSL.
Local Open Scope R_scope.

Definition lattice_hash (corner : vec2) : R :=
  fract (sin (dot corner (mkvec2 1 57) + 1) * 43758.5453).

(** The value at [(fx, fy)] of the bilinear patch with [v00], [v10], [v01]
    and [v11] at the corners (0,0), (1,0), (0,1) and (1,1). *)
Definition bilinear (v00 v10 v01 v11 fx fy : R) : R :=
  v00 * (1 - fx) * (1 - fy) + v10 * fx * (1 - fy)
  + v01 * (1 - fx) * fy + v11 * fx * fy.

Definition smooth_noise_ref (st : vec2) : R :=
  let i := mkvec2 (floor (vx st)) (floor (vy st)) in
  let fx := smoothstep 0 1 (fract (vx st)) in
  let fy := smoothstep 0 1 (fract (vy st)) in
  bilinear (lattice_hash i)
           (lattice_hash (vadd i (mkvec2 1 0)))
           (lattice_hash (vadd i (mkvec2 0 1)))
           (lattice_hash (vadd i (mkvec2 1 1)))
           fx fy.

End NoiseRef.

(** *** The quad as the pipeline sees it

    [main] declares attribute 0 (the position) as two floats at byte 0 of
    every 16-byte vertex and attribute 1 (the texture coordinate) as two
    floats at byte 8, and draws vertices 0 to 5 as [GL_TRIANGLES]: vertices
    [3j], [3j+1], [3j+2] make triangle [j]. *)

Module Quad.
Import GLSL.
Local Open Scope R_scope.

Definition stride : Z := 4 * Host.sizeof_float.
Definition position_pointer : Z := 0.
Definition tex_coord_pointer : Z := 2 * Host.sizeof_float.

(** Component [j] of the attribute at [pointer] of vertex [i]. *)
Definition component (data : list F32.float) (pointer : Z) (i j : nat) : R :=
  let first := Z.to_nat ((pointer + Z.of_nat i * stride) / Host.sizeof_float) in
  F32.to_R (nth (first + j) data F32.zero).

Definition attribute (data : list F32.float) (pointer : Z) (i : nat) : vec2 :=
  mkvec2 (component data pointer i 0) (component data pointer i 1).

(** The number of whole vertices in a buffer of [size] bytes. *)
Definition vertex_count (size : Z) : nat := Z.to_nat (size / stride).

(** Vertex [i] of [vertices] after the vertex shader. *)
Definition shaded (i : nat) : Vert.globals :=
  Vert.main (Vert.mkglobals (attribute Host.vertices position_pointer i)
                            (attribute Host.vertices tex_coord_pointer i)
                            (vec2_of 0) (mkvec4 0 0 0 0)).

(** Its place in clip space ([x] and [y] of [gl_Position]) and the texture
    coordinate it hands on. *)
Definition position (i : nat) : vec2 :=
  mkvec2 (v4r (Vert.gl_Position (shaded i))) (v4g (Vert.gl_Position (shaded i))).
Definition tex (i : nat) : vec2 := Vert.tex_coord (shaded i).

(** The point with barycentric weights [u], [v], [w] over [a], [b], [c]. *)
Definition weighted (u v w : R) (a b c : vec2) : vec2 :=
  mkvec2 (u * vx a + v * vx b + w * vx c) (u * vy a + v * vy b + w * vy c).

Definition in_triangle (a b c p : vec2) : Prop :=
  exists u v w : R,
    0 <= u /\ 0 <= v /\ 0 <= w /\ u + v + w = 1 /\ p = weighted u v w a b c.

(** [p] lies in one of the two triangles drawn. *)
Definition covered (p : vec2) : Prop :=
  exists j : nat, (j < 2)%nat /\
    in_triangle (position (3 * j)) (position (3 * j + 1)) (position (3 * j + 2)) p.

Definition in_square (p : vec2) : Prop :=
  -1 <= vx p <= 1 /\ -1 <= vy p <= 1.

End Quad.

(** ** Further observations

    What the properties beyond the claims speak about: more projections of
    a trace, the bindings a trace leaves behind, and the order of floats. *)

Module More.
Import Host Run.
Local Open Scope Z_scope.

(** The number of calls in [t] that satisfy [p]. *)
Definition count_calls (p : call -> bool) (t : list call) : nat :=
  List.length (filter p t).

Definition is_terminate (c : call) : bool :=
  match c with GlfwTerminate => true | _ => false end.
Definition is_clear (c : call) : bool :=
  match c with GlClear _ => true | _ => false end.
Definition is_swap (c : call) : bool :=
  match c with GlfwSwapBuffers _ => true | _ => false end.
Definition is_poll_events (c : call) : bool :=
  match c with GlfwPollEvents => true | _ => false end.
Definition is_draw (c : call) : bool :=
  match c with GlDrawArrays _ _ _ => true | _ => false end.
Definition is_uniform_lookup (c : call) : bool :=
  match c with GlGetUniformLocation _ _ => true | _ => false end.
Definition is_program_log (c : call) : bool :=
  match c with GlGetProgramInfoLog _ _ => true | _ => false end.
Definition is_delete (c : call) : bool :=
  match c with
  | GlDeleteVertexArrays _ _ | GlDeleteBuffers _ _ | GlDeleteProgram _ => true
  | _ => false
  end.

(** The locations [glUniform1f] was called with, in order. *)
Fixpoint upload_locations (t : list call) : list GLint :=
  match t with
  | [] => []
  | GlUniform1f loc _ :: t' => loc :: upload_locations t'
  | _ :: t' => upload_locations t'
  end.

(** The handles passed to [glDeleteShader], and the shader handles passed to
    [glAttachShader], in order. *)
Fixpoint deleted_shaders (t : list call) : list GLuint :=
  match t with
  | [] => []
  | GlDeleteShader s :: t' => s :: deleted_shaders t'
  | _ :: t' => deleted_shaders t'
  end.

Fixpoint attached_shaders (t : list call) : list GLuint :=
  match t with
  | [] => []
  | GlAttachShader _ s :: t' => s :: attached_shaders t'
  | _ :: t' => attached_shaders t'
  end.







(** The close flag is clear at every poll below [n]. *)
Definition stays_open (d : driver) (n : nat) : bool :=
  forallb (fun k => c_not (window_should_close d k)) (seq 0 n).

(** The other shader stage. *)
Definition other_stage (ty : shader_type) : shader_type :=
  match ty with
  | GL_VERTEX_SHADER => GL_FRAGMENT_SHADER
  | GL_FRAGMENT_SHADER => GL_VERTEX_SHADER
  end.

(** A driver that never closes the window. *)
Definition open_driver : driver :=
  mkdriver 1 4096 GLEW_OK
    (fun ty => match ty with GL_VERTEX_SHADER => 1 | GL_FRAGMENT_SHADER => 2 end)
    (fun _ => 1) (fun _ => EmptyString) 3 (fun _ => 1) (fun _ => EmptyString)
    (fun _ _ => 0) 1 2
    (fun _ => 0).

Definition is_attribute_layout (c : call) : bool :=
  match c with GlVertexAttribPointer _ _ _ _ _ _ => true | _ => false end.

(** Whether the draw [c] fetches, for the attribute that [a] declares, only
    bytes of a buffer of [bytes] bytes: vertex [i] of the draw has its
    [size] floats from byte [pointer + i * stride] on. *)
Definition fetches_inside (bytes : Z) (a c : call) : bool :=
  match a, c with
  | GlVertexAttribPointer _ size GL_FLOAT _ stride pointer,
    GlDrawArrays _ first count =>
      (0 <=? pointer + first * stride)
      && (pointer + (first + count - 1) * stride + size * sizeof_float <=? bytes)
  | _, _ => true
  end.

End More.

(** [x <= y] on floats, as C compares them (false when either is a NaN). *)
Definition f32_le (x y : F32.float) : Prop := SFleb x y = true.

(** Neither an infinity nor a NaN. *)
Definition f32_finite (x : F32.float) : bool :=
  match x with
  | S754_zero _ | S754_finite _ _ _ => true
  | _ => false
  end.

(** A positive normal number of at most 2^19 = 524288: 24 mantissa bits, and
    an exponent between that of [0.02f] and that of 2^19. *)
Definition normal_to_cap (x : F32.float) : Prop :=
  exists (m : positive) (e : Z),
    x = S754_finite false m e /\
    (2 ^ 23 <= Zpos m < 2 ^ 24)%Z /\
    (-29 <= e)%Z /\
    (e <= -5 \/ (e = -4 /\ Zpos m = 2 ^ 23))%Z.

(** Never going down, in the order of floats. *)
Fixpoint f32_sorted (l : list F32.float) : Prop :=
  match l with
  | [] => True
  | x :: l' =>
    match l' with
    | [] => True
    | y :: _ => f32_le x y /\ f32_sorted l'
    end
  end.

Section ScalarRestDefinitions.

Local Open Scope Z_scope.

(** ** The way of the animation scalar to its resting point

    [nf M e] is the positive float with mantissa [M] and exponent [e]. *)
Definition nf (M e : Z) : F32.float := S754_finite false (Z.to_pos M) e.

(** The location that rounding sees after [S] lost its [n] lowest bits: the
    highest of them as the round bit, any of the others as the sticky bit. *)
Definition shifted_out (S n : Z) : location :=
  loc_of_shr_record
    (Build_shr_record (S / 2 ^ n) (Z.odd (S / 2 ^ (n - 1)))
                      (negb (S mod 2 ^ (n - 1) =? 0)%Z)).

(** A stretch of the scalar's way: [Walk delta j] is [j] increments within
    one binade, each raising the mantissa by [delta]; [Hop] is one increment,
    computed. *)
Inductive leg : Type :=
| Walk (delta : Z) (j : N)
| Hop.

(** Follows one leg from the state [(k, M, e)]: after [k] increments the
    scalar is [nf M e].  [None] when a [Walk] does not fit its binade. *)
Definition follow_leg (l : leg) (st : N * Z * Z) : option (N * Z * Z) :=
  let '(k, M, e) := st in
  match l with
  | Walk delta j =>
    let M' := (M + Z.of_N j * delta)%Z in
    if ((2 ^ 23 <=? M) && (M' <? 2 ^ 24) && (-28 <=? e) && (e <=? -5)
        && (0 <=? delta)
        && ((2 * delta - 1) * 2 ^ (e + 28) <? 10737418)
        && (10737418 <? (2 * delta + 1) * 2 ^ (e + 28)))%Z
    then Some ((k + j)%N, M', e)
    else None
  | Hop =>
    match F32.add (nf M e) F32.lit_0_02 with
    | S754_finite false M' e' => Some ((k + 1)%N, Zpos M', e')
    | _ => None
    end
  end.

Fixpoint follow (ls : list leg) (st : N * Z * Z) : option (N * Z * Z) :=
  match ls with
  | [] => Some st
  | l :: ls' =>
    match follow_leg l st with
    | Some st' => follow ls' st'
    | None => None
    end
  end.

(** From the first frame to the last value below 2^19. *)
Definition way_to_rest : list leg :=
  [Hop; Hop; Hop; Hop; Hop; Hop; Walk 1342177 5; Hop; Walk 671089 11; Hop;
   Walk 335544 25; Hop; Walk 167772 49; Hop; Walk 83886 99; Hop;
   Walk 41943 199; Hop; Walk 20972 398; Hop; Walk 10486 799; Hop;
   Walk 5243 1599; Hop; Walk 2621 3200; Hop; Walk 1311 6398; Hop;
   Walk 655 12806; Hop; Walk 328 25574; Hop; Walk 164 51149; Hop;
   Walk 82 102299; Hop; Walk 41 204599; Hop; Walk 20 419429; Hop;
   Walk 10 838860; Hop; Walk 5 1677721; Hop; Walk 3 2796201; Hop;
   Walk 1 8388607; Hop; Walk 1 8388607].

(** The frame on which the scalar arrives at 2^19. *)
Definition frames_to_rest : N := 22918663.

(** What [k] steps of the rounding shift leave of [S]. *)
Definition shifted (S k : Z) (mrs : shr_record) : Prop :=
  shr_m mrs = S / 2 ^ k /\
  (k = 0 -> shr_r mrs = false /\ shr_s mrs = false) /\
  (0 < k -> shr_r mrs = Z.odd (S / 2 ^ (k - 1)) /\
            shr_s mrs = negb (S mod 2 ^ (k - 1) =? 0)).

(** After [k] increments the scalar is [nf M e]. *)
Definition at_frame (st : N * Z * Z) : Prop :=
  let '(k, M, e) := st in cloud_shift_after (N.to_nat k) = nf M e.

End ScalarRestDefinitions.

(* ===================================================================== *)
(** * Part II: facts                                                      *)
(* ===================================================================== *)

(** ** binary32 addition of positive numbers *)

Section PositiveSums.

Local Open Scope Z_scope.

(** A mantissa of [d] binary digits is at least [2^(d-1)]. *)
Lemma digits2_pos_lower (m : positive) : 2 ^ (Zpos (digits2_pos m) - 1) <= Zpos m.
Proof.
  induction m as [m IH|m IH|]; simpl digits2_pos.
  - rewrite Pos2Z.inj_succ.
    replace (Z.succ (Zpos (digits2_pos m)) - 1)
      with (Z.succ (Zpos (digits2_pos m) - 1)) by lia.
    rewrite Z.pow_succ_r by lia. lia.
  - rewrite Pos2Z.inj_succ.
    replace (Z.succ (Zpos (digits2_pos m)) - 1)
      with (Z.succ (Zpos (digits2_pos m) - 1)) by lia.
    rewrite Z.pow_succ_r by lia. lia.
  - simpl. lia.
Qed.

(** One step of the rounding shift halves the mantissa. *)
Lemma shr_1_m (mrs : shr_record) :
  0 <= shr_m mrs -> shr_m (shr_1 mrs) = Z.div2 (shr_m mrs).
Proof.
  destruct mrs as [m r s]; simpl.
  destruct m as [|[p|p|]|p]; simpl; try reflexivity; lia.
Qed.

Lemma shr_1_nonneg (mrs : shr_record) : 0 <= shr_m mrs -> 0 <= shr_m (shr_1 mrs).
Proof.
  intros H. rewrite shr_1_m by assumption. apply Z.div2_nonneg. assumption.
Qed.

(** [p] steps shift it right by [p]. *)
Lemma iter_pos_shr_m (p : positive) : forall mrs : shr_record,
  0 <= shr_m mrs ->
  shr_m (iter_pos shr_1 p mrs) = Z.shiftr (shr_m mrs) (Zpos p).
Proof.
  induction p as [p IH|p IH|]; intros mrs H; simpl iter_pos.
  - assert (H1 : 0 <= shr_m (shr_1 mrs)) by (apply shr_1_nonneg; assumption).
    assert (H2 : 0 <= shr_m (iter_pos shr_1 p (shr_1 mrs))).
    { rewrite IH by assumption. apply Z.shiftr_nonneg. assumption. }
    rewrite IH, IH, shr_1_m by assumption.
    rewrite Z.div2_spec, !Z.shiftr_shiftr by lia. f_equal. lia.
  - assert (H2 : 0 <= shr_m (iter_pos shr_1 p mrs)).
    { rewrite IH by assumption. apply Z.shiftr_nonneg. assumption. }
    rewrite IH, IH by assumption.
    rewrite !Z.shiftr_shiftr by lia. f_equal. lia.
  - rewrite shr_1_m by assumption. apply Z.div2_spec.
Qed.

Lemma shr_record_of_loc_m (m : Z) (l : location) : shr_m (shr_record_of_loc m l) = m.
Proof. destruct l as [|[| |]]; reflexivity. Qed.

Lemma fexp_ge_emin (e : Z) : emin32 <= fexp F32.prec F32.emax e.
Proof. unfold fexp, emin32. apply Z.le_max_r. Qed.

(** The shift to the canonical exponent never shifts a positive mantissa
    away, and never lowers the exponent below [emin32]. *)
Lemma shr_fexp_pos (m : positive) (e : Z) (l : location) :
  emin32 <= e ->
  exists m', shr_m (fst (shr_fexp F32.prec F32.emax (Zpos m) e l)) = Zpos m'
             /\ emin32 <= snd (shr_fexp F32.prec F32.emax (Zpos m) e l).
Proof.
  intros He. unfold shr_fexp, shr.
  destruct (fexp F32.prec F32.emax (Zdigits2 (Zpos m) + e) - e) as [|p|p] eqn:Hn;
    cbn [fst snd].
  - exists m. rewrite shr_record_of_loc_m. auto.
  - rewrite iter_pos_shr_m by (rewrite shr_record_of_loc_m; lia).
    rewrite shr_record_of_loc_m, Z.shiftr_div_pow2 by lia.
    assert (Hp : Zpos p <= Zpos (digits2_pos m) - 1).
    { revert Hn He. unfold fexp, emin32, emin, F32.prec, F32.emax.
      simpl Zdigits2. lia. }
    assert (Hpow : 2 ^ Zpos p <= Zpos m).
    { pose proof (digits2_pos_lower m).
      pose proof (Z.pow_le_mono_r 2 (Zpos p) (Zpos (digits2_pos m) - 1)). lia. }
    assert (Hq : 1 <= Zpos m / 2 ^ Zpos p).
    { apply Z.div_le_lower_bound; lia. }
    destruct (Zpos m / 2 ^ Zpos p) as [|q|q]; try lia.
    exists q. split; [reflexivity | lia].
  - exists m. rewrite shr_record_of_loc_m. auto.
Qed.

Lemma round_nearest_even_pos (m : positive) (l : location) :
  exists m', round_nearest_even (Zpos m) l = Zpos m'.
Proof.
  destruct l as [|[| |]]; simpl; eauto.
  destruct m; simpl; eauto.
Qed.

Lemma binary_round_aux_pos (m : positive) (e : Z) (l : location) :
  emin32 <= e -> pos_or_inf (binary_round_aux F32.prec F32.emax false (Zpos m) e l).
Proof.
  intros He. unfold binary_round_aux.
  destruct (shr_fexp_pos m e l He) as (m1 & Hm1 & He1).
  destruct (shr_fexp F32.prec F32.emax (Zpos m) e l) as [mrs1 e1]. cbn [fst snd] in *.
  rewrite Hm1.
  destruct (round_nearest_even_pos m1 (loc_of_shr_record mrs1)) as (m2 & ->).
  destruct (shr_fexp_pos m2 e1 loc_Exact He1) as (m3 & Hm3 & He3).
  destruct (shr_fexp F32.prec F32.emax (Zpos m2) e1 loc_Exact) as [mrs3 e3].
  cbn [fst snd] in *. rewrite Hm3.
  destruct (e3 <=? F32.emax - F32.prec) eqn:Hle.
  - left. unfold F32.is_pos_finite. apply Z.leb_le. exact He3.
  - right. reflexivity.
Qed.

Lemma binary_round_pos (m : positive) (e : Z) :
  emin32 <= e -> pos_or_inf (binary_round F32.prec F32.emax false m e).
Proof.
  intros He. unfold binary_round, shl_align.
  destruct (fexp F32.prec F32.emax (Zpos (digits2_pos m) + e) - e) eqn:Hd;
    apply binary_round_aux_pos; try assumption.
  apply fexp_ge_emin.
Qed.

(** The sum of two positive binary32 numbers is positive or overflows; it is
    never zero. *)
Lemma add_pos_finite (x y : F32.float) :
  F32.is_pos_finite x = true -> F32.is_pos_finite y = true ->
  pos_or_inf (F32.add x y).
Proof.
  destruct x as [| | |[|] mx ex]; try discriminate.
  destruct y as [| | |[|] my ey]; try discriminate.
  unfold F32.is_pos_finite. intros Hx%Z.leb_le Hy%Z.leb_le.
  unfold F32.add, SFadd. cbn [cond_Zopp]. cbn [Z.add binary_normalize].
  apply binary_round_pos. unfold emin32 in *. lia.
Qed.

Lemma add_pos_or_inf (x y : F32.float) :
  pos_or_inf x -> F32.is_pos_finite y = true -> pos_or_inf (F32.add x y).
Proof.
  intros [Hx | ->] Hy.
  - apply add_pos_finite; assumption.
  - destruct y as [| | |[|] my ey]; try discriminate. right. reflexivity.
Qed.

Lemma pos_or_inf_not_zero (x : F32.float) : pos_or_inf x -> F32.is_zero x = false.
Proof.
  intros [H | ->]; [|reflexivity].
  destruct x as [| | |s m e]; try discriminate. reflexivity.
Qed.

(** [0.02f] is 10737418 * 2^-29, and 2/100 is within half a unit of its last
    place: |2/100 - 10737418 / 2^29| * 2^29 = 12/50 <= 1/2. *)
Lemma lit_0_02_value :
  F32.lit_0_02 = S754_finite false 10737418 (-29) /\
  2 * Z.abs (2 ^ 29 * 2 - 10737418 * 100) <= 100.
Proof. split; [vm_compute; reflexivity | vm_compute; discriminate]. Qed.

(** At 2^19 the increment is below half a unit of the last place: the
    scalar stays where it is. *)
Lemma add_stalls_at_524288 :
  F32.add (F32.of_Z 524288) F32.lit_0_02 = F32.of_Z 524288.
Proof. vm_compute. reflexivity. Qed.

(** From the first frame on the scalar is above zero. *)
Lemma cloud_shift_after_pos (k : nat) : pos_or_inf (cloud_shift_after (S k)).
Proof.
  induction k as [|k IH].
  - left. reflexivity.
  - change (cloud_shift_after (S (S k)))
      with (F32.add (cloud_shift_after (S k)) F32.lit_0_02).
    apply add_pos_or_inf; [exact IH | reflexivity].
Qed.

Lemma shift_n_after (n k : nat) :
  shift_n n (cloud_shift_after k) = cloud_shift_after (k + n).
Proof.
  revert k. induction n as [|n IH]; intros k; cbn [shift_n].
  - rewrite Nat.add_0_r. reflexivity.
  - change (F32.add (cloud_shift_after k) F32.lit_0_02) with (cloud_shift_after (S k)).
    rewrite IH. f_equal. lia.
Qed.

End PositiveSums.

(** ** Ranges of the GLSL built-ins and of the noise *)

Section ShaderRanges.

Import GLSL.
Local Open Scope R_scope.

Lemma fract_range (x : R) : 0 <= fract x < 1.
Proof.
  unfold fract, floor. destruct (base_Int_part x) as [H1 H2]. lra.
Qed.

Lemma clamp_range (x : R) : 0 <= clamp x 0 1 <= 1.
Proof.
  unfold clamp, Rmin, Rmax.
  destruct (Rle_dec x 0); destruct (Rle_dec _ 1); lra.
Qed.

Lemma hermite_range (t : R) : 0 <= t <= 1 -> 0 <= t * t * (3 - 2 * t) <= 1.
Proof.
  intros [H0 H1]. split.
  - apply Rmult_le_pos; [apply Rmult_le_pos|]; lra.
  - assert (0 <= (1 - t) * (1 - t) * (1 + 2 * t)).
    { apply Rmult_le_pos; [apply Rmult_le_pos|]; lra. }
    lra.
Qed.

Lemma smoothstep_range (edge0 edge1 x : R) : 0 <= smoothstep edge0 edge1 x <= 1.
Proof. unfold smoothstep. apply hermite_range, clamp_range. Qed.


Lemma mix_below_one (x y a : R) :
  0 <= x < 1 -> 0 <= y < 1 -> 0 <= a <= 1 -> 0 <= mix x y a < 1.
Proof.
  unfold mix. intros Hx Hy Ha.
  assert (0 <= x * (1 - a)) by (apply Rmult_le_pos; lra).
  assert (0 <= y * a) by (apply Rmult_le_pos; lra).
  assert (0 <= (1 - x) * (1 - a)) by (apply Rmult_le_pos; lra).
  assert (0 <= (1 - y) * a) by (apply Rmult_le_pos; lra).
  destruct (Rle_lt_dec a (1/2)).
  - assert (0 < (1 - x) * (1 - a)) by (apply Rmult_lt_0_compat; lra). lra.
  - assert (0 < (1 - y) * a) by (apply Rmult_lt_0_compat; lra). lra.
Qed.

Lemma smooth_noise_range (st : vec2) : 0 <= Frag.smooth_noise st < 1.
Proof.
  unfold Frag.smooth_noise. cbv zeta.
  repeat apply mix_below_one; try apply fract_range; apply smoothstep_range.
Qed.

Lemma main_n_range (tex_coord : vec2) (cloud_shift : R) :
  0 <= Frag.main_n tex_coord cloud_shift < 1.75.
Proof.
  unfold Frag.main_n. cbv zeta.
  pose proof (smooth_noise_range (Frag.octave0_coord tex_coord cloud_shift)).
  pose proof (smooth_noise_range (Frag.octave1_coord tex_coord cloud_shift)).
  pose proof (smooth_noise_range (Frag.octave2_coord tex_coord cloud_shift)).
  lra.
Qed.

Lemma vec2_eq (a b c d : R) : a = c -> b = d -> mkvec2 a b = mkvec2 c d.
Proof. intros -> ->. reflexivity. Qed.

(** The three sample points of [main], in closed form. *)
Lemma octave_coords (tex_coord : vec2) (cloud_shift : R) :
  Frag.octave0_coord tex_coord cloud_shift
    = mkvec2 (5 * vx tex_coord + 0.15 * cloud_shift) (5 * vy tex_coord) /\
  Frag.octave1_coord tex_coord cloud_shift
    = mkvec2 (10 * vx tex_coord + 0.25 * cloud_shift)
             (10 * vy tex_coord - 0.05 * cloud_shift) /\
  Frag.octave2_coord tex_coord cloud_shift
    = mkvec2 (20 * vx tex_coord + 0.5 * cloud_shift)
             (20 * vy tex_coord - 0.1 * cloud_shift).
Proof.
  unfold Frag.octave0_coord, Frag.octave1_coord, Frag.octave2_coord, Frag.main_st,
    vsub_s, vmul_s.
  cbn [vx vy]. repeat split; apply vec2_eq; lra.
Qed.

End ShaderRanges.

(** ** The quad *)

Section QuadFacts.

Import GLSL.
Local Open Scope R_scope.

Lemma to_R_one : F32.to_R F32.one = 1.
Proof.
  change F32.one with (S754_finite false 8388608 (-23)).
  unfold F32.to_R, F32.pow2R, cond_Zopp.
  change (Z.pow_pos 2 23) with 8388608%Z. lra.
Qed.

Lemma to_R_neg_one : F32.to_R F32.neg_one = -1.
Proof.
  change F32.neg_one with (S754_finite true 8388608 (-23)).
  unfold F32.to_R, F32.pow2R, cond_Zopp. cbn [Z.opp].
  change (Z.pow_pos 2 23) with 8388608%Z. lra.
Qed.

Lemma to_R_zero : F32.to_R F32.zero = 0.
Proof. reflexivity. Qed.

Ltac quad_eval :=
  unfold Quad.position, Quad.tex, Quad.shaded, Vert.main, Quad.attribute,
    Quad.component;
  cbn [Vert.gl_Position Vert.tex_coord Vert.in_position Vert.in_tex_coord vec4_of2
       v4r v4g v4b v4a vx vy];
  repeat match goal with
  | |- context [Z.to_nat ?z] =>
      let n := eval vm_compute in (Z.to_nat z) in
      progress change (Z.to_nat z) with n
  end;
  cbn [Nat.add nth Host.vertices];
  rewrite ?to_R_one, ?to_R_neg_one, ?to_R_zero.

Lemma quad_positions :
  Quad.position 0 = mkvec2 (-1) 1 /\ Quad.position 1 = mkvec2 (-1) (-1) /\
  Quad.position 2 = mkvec2 1 (-1) /\ Quad.position 3 = mkvec2 (-1) 1 /\
  Quad.position 4 = mkvec2 1 (-1) /\ Quad.position 5 = mkvec2 1 1.
Proof. quad_eval. repeat split; reflexivity. Qed.

Lemma quad_texs :
  Quad.tex 0 = mkvec2 0 1 /\ Quad.tex 1 = mkvec2 0 0 /\
  Quad.tex 2 = mkvec2 1 0 /\ Quad.tex 3 = mkvec2 0 1 /\
  Quad.tex 4 = mkvec2 1 0 /\ Quad.tex 5 = mkvec2 1 1.
Proof. quad_eval. repeat split; reflexivity. Qed.

(** Every vertex leaves the vertex shader with [z = 0] and [w = 1]. *)
Lemma quad_depth (i : nat) :
  v4b (Vert.gl_Position (Quad.shaded i)) = 0 /\
  v4a (Vert.gl_Position (Quad.shaded i)) = 1.
Proof.
  unfold Quad.shaded, Vert.main.
  cbn [Vert.gl_Position vec4_of2 v4b v4a]. split; lra.
Qed.

(** The two triangles make up the square and nothing else. *)
Lemma square_covered (p : vec2) : Quad.in_square p <-> Quad.covered p.
Proof.
  destruct quad_positions as (P0 & P1 & P2 & P3 & P4 & P5).
  destruct p as [x y]. unfold Quad.in_square, Quad.covered, Quad.in_triangle.
  cbn [vx vy]. split.
  - intros [Hx Hy]. destruct (Rle_lt_dec (x + y) 0) as [Hd | Hd].
    + exists 0%nat. split; [lia|]. cbn [Nat.mul Nat.add]. rewrite P0, P1, P2.
      exists ((y + 1) / 2), (- (x + y) / 2), ((x + 1) / 2).
      repeat split; try lra. unfold Quad.weighted. cbn [vx vy]. apply vec2_eq; lra.
    + exists 1%nat. split; [lia|]. cbn [Nat.mul Nat.add]. rewrite P3, P4, P5.
      exists ((1 - x) / 2), ((1 - y) / 2), ((x + y) / 2).
      repeat split; try lra. unfold Quad.weighted. cbn [vx vy]. apply vec2_eq; lra.
  - intros (j & Hj & u & v & w & Hu & Hv & Hw & Hs & Hp).
    assert (Hcases : j = 0%nat \/ j = 1%nat) by lia.
    destruct Hcases as [-> | ->]; cbn [Nat.mul Nat.add] in Hp;
      rewrite ?P0, ?P1, ?P2, ?P3, ?P4, ?P5 in Hp;
      unfold Quad.weighted in Hp; cbn [vx vy] in Hp;
      injection Hp as -> ->; lra.
Qed.

(** Across either triangle the interpolated texture coordinate is the affine
    image [(p + 1) / 2] of the clip-space point [p]. *)
Lemma tex_interpolated (j : nat) (u v w : R) :
  (j < 2)%nat -> u + v + w = 1 ->
  let p := Quad.weighted u v w (Quad.position (3 * j)) (Quad.position (3 * j + 1))
                         (Quad.position (3 * j + 2)) in
  Quad.weighted u v w (Quad.tex (3 * j)) (Quad.tex (3 * j + 1)) (Quad.tex (3 * j + 2))
  = mkvec2 ((vx p + 1) / 2) ((vy p + 1) / 2).
Proof.
  destruct quad_positions as (P0 & P1 & P2 & P3 & P4 & P5).
  destruct quad_texs as (T0 & T1 & T2 & T3 & T4 & T5).
  intros Hj Hs.
  assert (Hcases : j = 0%nat \/ j = 1%nat) by lia.
  destruct Hcases as [-> | ->]; cbn [Nat.mul Nat.add];
    rewrite ?P0, ?P1, ?P2, ?P3, ?P4, ?P5, ?T0, ?T1, ?T2, ?T3, ?T4, ?T5;
    unfold Quad.weighted; cbn [vx vy]; apply vec2_eq; lra.
Qed.

End QuadFacts.

(** ** Runs of the host program *)

Lemma append_empty_r (s : string) : (s ++ "")%string = s.
Proof. induction s as [|c s IH]; simpl; [reflexivity | now rewrite IH]. Qed.

Lemma append_assoc (s t u : string) :
  ((s ++ t) ++ u)%string = (s ++ (t ++ u))%string.
Proof. induction s as [|c s IH]; simpl; [reflexivity | now rewrite IH]. Qed.

(** Runs the library calls of a goal on a world given by its fields. *)
Ltac run_host :=
  lazy [Host.bind Host.ret Host.ask Host.emit Host.fprintf_stderr Host.glfwInit
        Host.glfwCreateWindow Host.glfwTerminate Host.glfwMakeContextCurrent
        Host.set_glewExperimental Host.glewInit Host.glCreateShader
        Host.glShaderSource Host.glCompileShader Host.glGetShaderiv
        Host.glGetShaderInfoLog Host.glCreateProgram Host.glAttachShader
        Host.glLinkProgram Host.glGetProgramiv Host.glGetProgramInfoLog
        Host.glGetUniformLocation Host.glDeleteShader Host.glGenVertexArrays
        Host.glGenBuffers Host.glBindVertexArray Host.glBindBuffer Host.glBufferData
        Host.glVertexAttribPointer Host.glEnableVertexAttribArray
        Host.glfwWindowShouldClose Host.glClear Host.glUseProgram Host.glUniform1f
        Host.glDrawArrays Host.glfwSwapBuffers Host.glfwPollEvents
        Host.glDeleteVertexArrays Host.glDeleteBuffers Host.glDeleteProgram
        Host.trace Host.stderr Host.polls Host.world0].

Section HostRuns.

Import Host Run.
Local Open Scope Z_scope.

Variable d : driver.

Lemma compile_shader_run (source : string) (ty : shader_type) (w : world) :
  compile_shader source ty d w =
  (compile_result d ty,
   mkworld (trace w ++ compile_calls d source ty)
           (stderr w ++ compile_message d ty) (polls w)).
Proof.
  unfold compile_shader, compile_result, compile_calls, compile_message.
  destruct w as [t e p]. run_host.
  destruct (c_not (compile_status d (glCreateShader_ret d ty)));
    rewrite <- ?app_assoc, ?append_empty_r, ?app_nil_r; reflexivity.
Qed.

Lemma render_loop_run (window : GLFWwindow_ptr) (program : GLuint) (loc : GLint)
  (VAO : GLuint) (fuel : nat) :
  forall (cs : F32.float) (w : world),
  render_loop fuel window program loc VAO cs d w =
  let n := frames_run d fuel (polls w) in
  let left := loop_exits d fuel (polls w) in
  (if left then Some (shift_n n cs) else None,
   mkworld (trace w ++ frames_calls window program loc VAO n cs
            ++ (if left then [GlfwWindowShouldClose window] else []))
           (stderr w)
           (polls w + n + (if left then 1 else 0))%nat).
Proof.
  induction fuel as [|fuel' IH]; intros cs w.
  - destruct w as [t e p]. cbn. rewrite app_nil_r, !Nat.add_0_r. reflexivity.
  - destruct w as [t e p]. cbn [render_loop frames_run loop_exits]. run_host.
    destruct (c_not (window_should_close d p)).
    + rewrite IH. cbn [trace stderr polls frames_calls shift_n].
      cbv zeta. f_equal. f_equal.
      * unfold frame_calls. rewrite <- !app_assoc. reflexivity.
      * lia.
    + cbn [frames_calls shift_n app]. rewrite Nat.add_0_r, Nat.add_1_r. reflexivity.
Qed.

(** [main], path by path. *)
Lemma main_run (fuel : nat) :
  main fuel d world0 =
  if c_not (glfwInit_ret d) then (Some (-1), mkworld [GlfwInit] "" 0)
  else if c_not (glfwCreateWindow_ret d) then
    (Some (-1),
     mkworld [GlfwInit; GlfwCreateWindow 1280 960 "Clouds"; GlfwTerminate] "" 0)
  else if glew_neq_ok (glewInit_ret d) then
    (Some (-1),
     mkworld (glew_failure_calls d) ("Failed to initialize GLEW" ++ newline) 0)
  else
    let n := frames_run d fuel 0 in
    let left := loop_exits d fuel 0 in
    (if left then Some 0 else None,
     mkworld (setup_calls d ++ main_frames d n
              ++ (if left
                  then GlfwWindowShouldClose (glfwCreateWindow_ret d)
                       :: shutdown_calls d
                  else []))
             (stderr (setup_world d))
             (n + (if left then 1 else 0))%nat).
Proof.
  unfold main. run_host. cbn [app].
  destruct (c_not (glfwInit_ret d)); [reflexivity|].
  destruct (c_not (glfwCreateWindow_ret d)); [reflexivity|].
  destruct (glew_neq_ok (glewInit_ret d)); [reflexivity|].
  rewrite !compile_shader_run. cbn [trace stderr polls].
  unfold setup_world, setup_calls, link_message, main_frames. cbn [stderr].
  destruct (c_not (link_status d (glCreateProgram_ret d)));
    cbn [trace stderr polls];
    rewrite render_loop_run; cbv zeta; cbn [trace stderr polls];
    destruct (loop_exits d fuel 0); cbn [trace stderr polls];
    unfold shutdown_calls;
    rewrite <- ?app_assoc, ?append_assoc, ?append_empty_r, ?app_nil_r;
    cbn [app append]; reflexivity.
Qed.

(** When the window is closed during frame [N] and the fuel reaches that
    far, the loop draws [N] frames and is left. *)
Lemma loop_until_close (N : nat) : forall fuel p : nat,
  (forall k, (k < N)%nat -> c_not (window_should_close d (p + k)) = true) ->
  c_not (window_should_close d (p + N)) = false ->
  (N < fuel)%nat ->
  frames_run d fuel p = N /\ loop_exits d fuel p = true.
Proof.
  induction N as [|N IH]; intros fuel p Hopen Hclose Hfuel.
  - destruct fuel as [|fuel]; [lia|]. cbn [frames_run loop_exits].
    rewrite Nat.add_0_r in Hclose. rewrite Hclose. auto.
  - destruct fuel as [|fuel]; [lia|]. cbn [frames_run loop_exits].
    pose proof (Hopen 0%nat ltac:(lia)) as H0. rewrite Nat.add_0_r in H0. rewrite H0.
    destruct (IH fuel (S p)) as [Hn Hl].
    + intros k Hk. replace (S p + k)%nat with (p + S k)%nat by lia.
      apply Hopen. lia.
    + replace (S p + N)%nat with (p + S N)%nat by lia. exact Hclose.
    + lia.
    + rewrite Hn, Hl. auto.
Qed.

Lemma closes_at_run (N fuel : nat) :
  closes_at d N = true -> (N < fuel)%nat ->
  frames_run d fuel 0 = N /\ loop_exits d fuel 0 = true.
Proof.
  unfold closes_at. intros [Hopen Hclose]%andb_true_iff Hfuel.
  apply loop_until_close; [| |exact Hfuel]; cbn [Nat.add].
  - intros k Hk. rewrite forallb_forall in Hopen. apply Hopen, in_seq. lia.
  - apply negb_true_iff. exact Hclose.
Qed.

End HostRuns.

(** ** Observations on the traces of [main] *)

Section TraceFacts.

Import Host Run.
Local Open Scope Z_scope.

Lemma uploads_app (t u : list call) : uploads (t ++ u) = uploads t ++ uploads u.
Proof.
  induction t as [|c t IH]; [reflexivity|].
  destruct c; cbn [app uploads]; rewrite IH; reflexivity.
Qed.

Lemma frames_drawn_app (t u : list call) :
  frames_drawn (t ++ u) = (frames_drawn t + frames_drawn u)%nat.
Proof.
  induction t as [|c t IH]; [reflexivity|].
  destruct c; cbn [app frames_drawn]; rewrite IH; reflexivity.
Qed.

Lemma buffer_writes_app (t u : list call) :
  buffer_writes (t ++ u) = buffer_writes t ++ buffer_writes u.
Proof.
  induction t as [|c t IH]; [reflexivity|].
  destruct c; cbn [app buffer_writes]; rewrite IH; reflexivity.
Qed.

Variable d : driver.

(** Before the loop nothing is uploaded or drawn, and the buffer is filled
    once. *)
Lemma setup_observed :
  uploads (setup_calls d) = [] /\ frames_drawn (setup_calls d) = 0%nat /\
  buffer_writes (setup_calls d)
    = [GlBufferData GL_ARRAY_BUFFER 96 vertices GL_STATIC_DRAW].
Proof.
  unfold setup_calls, compile_calls.
  destruct (c_not (compile_status d (glCreateShader_ret d GL_VERTEX_SHADER)));
    destruct (c_not (compile_status d (glCreateShader_ret d GL_FRAGMENT_SHADER)));
    destruct (c_not (link_status d (glCreateProgram_ret d)));
    repeat split; reflexivity.
Qed.

Lemma frames_observed (window : GLFWwindow_ptr) (program : GLuint) (loc : GLint)
  (VAO : GLuint) (n : nat) : forall cs : F32.float,
  uploads (frames_calls window program loc VAO n cs)
    = map (fun k => shift_n k cs) (seq 1 n) /\
  frames_drawn (frames_calls window program loc VAO n cs) = n /\
  buffer_writes (frames_calls window program loc VAO n cs) = [].
Proof.
  induction n as [|n IH]; intros cs; [repeat split; reflexivity|].
  destruct (IH (F32.add cs F32.lit_0_02)) as (Hu & Hd & Hb).
  cbn [frames_calls frame_calls app uploads frames_drawn buffer_writes].
  rewrite Hu, Hd, Hb. repeat split.
  cbn [seq map shift_n]. f_equal. rewrite <- (seq_shift n 1), map_map. reflexivity.
Qed.

Lemma main_frames_observed (n : nat) :
  uploads (main_frames d n) = map cloud_shift_after (seq 1 n) /\
  frames_drawn (main_frames d n) = n /\
  buffer_writes (main_frames d n) = [].
Proof.
  unfold main_frames.
  destruct (frames_observed (glfwCreateWindow_ret d) (glCreateProgram_ret d)
              (uniform_location d (glCreateProgram_ret d) "cloud_shift")
              (glGenVertexArrays_ret d) n F32.zero) as (Hu & Hd & Hb).
  rewrite Hu, Hd, Hb. repeat split.
  apply map_ext. intros k. apply (shift_n_after k 0).
Qed.

(** What is left of a trace that ends with the last poll and [tail], when
    [tail] polls no more. *)
Lemma after_last_poll_tail (t tail : list call) (window : GLFWwindow_ptr) :
  until_poll (rev tail) = rev tail ->
  after_last_poll (t ++ GlfwWindowShouldClose window :: tail) = tail.
Proof.
  intros Htail. unfold after_last_poll.
  rewrite rev_app_distr. cbn [rev]. rewrite <- !app_assoc. cbn [app].
  assert (H : forall l r, until_poll l = l ->
                until_poll (l ++ GlfwWindowShouldClose window :: r) = l).
  { induction l as [|c l IH]; intros r Hl; [reflexivity|].
    destruct c; cbn [app until_poll] in *; try discriminate;
      injection Hl as Hl; rewrite (IH r Hl); reflexivity. }
  rewrite H by exact Htail. apply rev_involutive.
Qed.

(** The whole trace of a run that ends with the window closed at frame [N]. *)
Lemma main_graceful (N fuel : nat) :
  init_ok d = true -> closes_at d N = true -> (N < fuel)%nat ->
  main fuel d world0 =
  (Some 0,
   mkworld (setup_calls d ++ main_frames d N
            ++ GlfwWindowShouldClose (glfwCreateWindow_ret d) :: shutdown_calls d)
           (stderr (setup_world d)) (N + 1)).
Proof.
  unfold init_ok. intros Hinit Hclose Hfuel.
  apply andb_true_iff in Hinit as [Hinit Hglew].
  apply andb_true_iff in Hinit as [Hglfw Hwin].
  apply negb_true_iff in Hglfw, Hwin, Hglew.
  rewrite main_run, Hglfw, Hwin, Hglew. cbv zeta.
  destruct (closes_at_run d N fuel Hclose Hfuel) as [-> ->]. reflexivity.
Qed.

(** The exit code of every run. *)
Lemma main_exit_code (fuel : nat) :
  fst (main fuel d world0) =
  if init_ok d then (if loop_exits d fuel 0 then Some 0 else None) else Some (-1).
Proof.
  rewrite main_run. unfold init_ok.
  destruct (c_not (glfwInit_ret d)); [reflexivity|].
  destruct (c_not (glfwCreateWindow_ret d)); [reflexivity|].
  destruct (glew_neq_ok (glewInit_ret d)); reflexivity.
Qed.

End TraceFacts.

(* ===================================================================== *)
(** * Part III: the claims                                                *)
(* ===================================================================== *)

Section FragmentClaims.

Import GLSL.
Local Open Scope R_scope.

(** C1, counterexample.  At texture coordinate (0, 0) the second octave is
    sampled at (0.25, -0.05) when the animation scalar is 1 and at (0, 0)
    when it is 0: the scalar moves its sample point along Y as well, because
    [st * 2.0 - cloud_shift * 0.05] subtracts the scalar from both
    components. *)
Lemma octave_offset_along_y :
  Frag.octave1_coord (mkvec2 0 0) 1 = mkvec2 0.25 (-0.05) /\
  Frag.octave1_coord (mkvec2 0 0) 0 = mkvec2 0 0 /\
  vy (Frag.octave1_coord (mkvec2 0 0) 1) <> vy (Frag.octave1_coord (mkvec2 0 0) 0).
Proof.
  destruct (octave_coords (mkvec2 0 0) 1) as (_ & H1 & _).
  destruct (octave_coords (mkvec2 0 0) 0) as (_ & H0 & _).
  rewrite H1, H0. cbn [vx vy]. repeat split.
  - apply vec2_eq; lra.
  - apply vec2_eq; lra.
  - lra.
Qed.

(** C1, as amended.  The noise value of the fragment shader's [main] is the
    sum of three octaves: [smooth_noise] at scale 5 with full weight, at
    scale 10 with weight 0.5 and at scale 20 with weight 0.25.  For every
    texture coordinate (x, y) and every animation scalar s the first octave
    is sampled at (5x + 0.15 s, 5y), offset along X only; the second at
    (10x + 0.25 s, 10y - 0.05 s) and the third at (20x + 0.5 s, 20y - 0.1 s),
    offset along X at the distinct rates 0.25 and 0.5 and along Y at the
    rates -0.05 and -0.1. *)
Theorem noise_sum_three_octaves (tex_coord : vec2) (cloud_shift : R) :
  let x := vx tex_coord in
  let y := vy tex_coord in
  let s := cloud_shift in
  Frag.main_n tex_coord cloud_shift
  = Frag.smooth_noise (mkvec2 (5 * x + 0.15 * s) (5 * y))
    + 0.5 * Frag.smooth_noise (mkvec2 (10 * x + 0.25 * s) (10 * y - 0.05 * s))
    + 0.25 * Frag.smooth_noise (mkvec2 (20 * x + 0.5 * s) (20 * y - 0.1 * s)).
Proof.
  cbv zeta. unfold Frag.main_n.
  destruct (octave_coords tex_coord cloud_shift) as (-> & -> & ->). lra.
Qed.

(** C2.  For every 2D input [st], [smooth_noise] equals the reference
    definition: integer cell [i = floor(st)], smoothed fraction
    [f = smoothstep(0, 1, fract(st))], the four lattice corners [i],
    [i+(1,0)], [i+(0,1)], [i+(1,1)] hashed as
    [fract(sin(dot(corner, (1,57)) + 1) * 43758.5453)], a value in [0,1),
    and the bilinear interpolation of the four corner values by [f]. *)
Theorem smooth_noise_is_reference (st : vec2) :
  Frag.smooth_noise st = NoiseRef.smooth_noise_ref st /\
  (forall corner : vec2,
     0 <= NoiseRef.lattice_hash corner /\ NoiseRef.lattice_hash corner < 1).
Proof.
  split.
  - unfold Frag.smooth_noise, NoiseRef.smooth_noise_ref, NoiseRef.lattice_hash.
    cbv zeta. unfold smoothstep2, vec2_of, floor2, fract2, vadd, dot. cbn [vx vy].
    replace 1.0 with 1 by lra. replace 57.0 with 57 by lra.
    replace 0.0 with 0 by lra.
    unfold mix, NoiseRef.bilinear. ring.
  - intros corner. apply fract_range.
Qed.





End FragmentClaims.

Section AnimationClaims.

Import Host Run.
Local Open Scope Z_scope.

(** C4, counterexample.  With the window closed after six frames the render
    loop ends with the scalar at 16106126 * 2^-27 (about 0.11999998987).
    The binary32 number nearest to 6 * 0.02 is 16106127 * 2^-27 (about
    0.11999999732), which is also the rounded product of 6 and 0.02f; and
    the scalar is not the real number 6 * 0.02 either. *)
Lemma six_frames_fall_short :
  fst (render_loop 7 4096 3 0 1 F32.zero (good_driver 6) world0)
    = Some (S754_finite false 16106126 (-27)) /\
  F32.div (F32.of_Z 12) (F32.of_Z 100) = S754_finite false 16106127 (-27) /\
  F32.mul (F32.of_Z 6) F32.lit_0_02 = S754_finite false 16106127 (-27) /\
  F32.to_R (S754_finite false 16106126 (-27)) <> (6 * 0.02)%R.
Proof.
  split; [vm_compute; reflexivity|].
  split; [vm_compute; reflexivity|].
  split; [vm_compute; reflexivity|].
  unfold F32.to_R, F32.pow2R, cond_Zopp.
  change (Z.pow_pos 2 27) with 134217728. lra.
Qed.

(** C4, as amended.  The animation scalar starts at 0, is incremented once
    per frame by one binary32 addition of the constant [0.02f] and is never
    reset, so after running N frames of the render loop, for every N, it
    equals the result of N successive rounded additions of [0.02f] to 0.
    That is the binary32 number nearest to N * 0.02 as long as N <= 4; it is
    not N * 0.02 in general. *)
Theorem cloud_shift_after_frames (d : driver) (window : GLFWwindow_ptr)
  (program : GLuint) (loc : GLint) (VAO : GLuint) (N fuel : nat) (w : world) :
  polls w = 0%nat -> closes_at d N = true -> (N < fuel)%nat ->
  let run := render_loop fuel window program loc VAO F32.zero d w in
  fst run = Some (cloud_shift_after N) /\
  frames_drawn (trace (snd run)) = (frames_drawn (trace w) + N)%nat /\
  ((N <= 4)%nat ->
   cloud_shift_after N = F32.div (F32.of_Z (2 * Z.of_nat N)) (F32.of_Z 100)).
Proof.
  intros Hp Hclose Hfuel. cbv zeta. rewrite render_loop_run. cbv zeta.
  rewrite Hp. destruct (closes_at_run d N fuel Hclose Hfuel) as [-> ->].
  cbn [fst snd trace]. split; [|split].
  - f_equal. apply (shift_n_after N 0).
  - rewrite !frames_drawn_app.
    destruct (frames_observed window program loc VAO N F32.zero) as (_ & -> & _).
    cbn [frames_drawn]. lia.
  - intros HN.
    assert (Hcases : (N = 0 \/ N = 1 \/ N = 2 \/ N = 3 \/ N = 4)%nat) by lia.
    destruct Hcases as [-> | [-> | [-> | [-> | ->]]]]; vm_compute; reflexivity.
Qed.

(** C4, as amended, for a window closed after three frames. *)
Lemma cloud_shift_after_frames_witness :
  polls world0 = 0%nat /\ closes_at (good_driver 3) 3 = true /\ (3 < 4)%nat /\
  fst (render_loop 4 4096 3 0 1 F32.zero (good_driver 3) world0)
    = Some (cloud_shift_after 3).
Proof.
  split; [reflexivity|]. split; [reflexivity|]. split; [lia|].
  exact (proj1 (cloud_shift_after_frames (good_driver 3) 4096 3 0 1 3 4 world0
                  eq_refl eq_refl (Nat.lt_succ_diag_r 3))).
Defined.

(** C10.  In every pass of the render loop the increment comes before the
    upload: the value uploaded on the k-th frame (k >= 1) is the result of k
    successive additions of [0.02f] starting from 0.  In particular zero is
    never uploaded, and the first value uploaded is [0.02f]. *)
Theorem uploads_follow_increment (d : driver) (fuel : nat) :
  let t := trace (snd (main fuel d world0)) in
  uploads t = map cloud_shift_after (seq 1 (frames_drawn t)) /\
  (forall v, In v (uploads t) -> F32.is_zero v = false) /\
  (forall k, F32.is_zero (cloud_shift_after (S k)) = false) /\
  cloud_shift_after 1 = F32.lit_0_02.
Proof.
  cbv zeta.
  assert (Hnz : forall k, F32.is_zero (cloud_shift_after (S k)) = false).
  { intros k. apply pos_or_inf_not_zero, cloud_shift_after_pos. }
  assert (Hup : uploads (trace (snd (main fuel d world0)))
                = map cloud_shift_after
                      (seq 1 (frames_drawn (trace (snd (main fuel d world0)))))).
  { rewrite main_run.
    destruct (c_not (glfwInit_ret d)); [reflexivity|].
    destruct (c_not (glfwCreateWindow_ret d)); [reflexivity|].
    destruct (glew_neq_ok (glewInit_ret d)); [reflexivity|].
    cbv zeta. cbn [snd trace].
    rewrite !uploads_app, !frames_drawn_app.
    destruct (setup_observed d) as (-> & -> & _).
    destruct (main_frames_observed d (frames_run d fuel 0)) as (-> & -> & _).
    destruct (loop_exits d fuel 0);
      cbn [uploads frames_drawn shutdown_calls app];
      rewrite app_nil_r, Nat.add_0_r; reflexivity. }
  split; [exact Hup|]. split; [|split; [exact Hnz | reflexivity]].
  intros v Hv. rewrite Hup in Hv. apply in_map_iff in Hv as (k & <- & Hk).
  apply in_seq in Hk. destruct k as [|k]; [lia|]. apply Hnz.
Qed.

(** C10 for a window closed after two frames: [0.02f] is uploaded, and it
    is not zero. *)
Lemma uploads_follow_increment_witness :
  let t := trace (snd (main 3 (good_driver 2) world0)) in
  In F32.lit_0_02 (uploads t) /\ F32.is_zero F32.lit_0_02 = false.
Proof.
  intros t.
  assert (H : In F32.lit_0_02 (uploads t)) by (vm_compute; left; reflexivity).
  split; [exact H|].
  exact (proj1 (proj2 (uploads_follow_increment (good_driver 2) 3)) F32.lit_0_02 H).
Defined.

End AnimationClaims.


Section LifecycleClaims.

Import Host Run.
Local Open Scope Z_scope.

(** C5, counterexample.  With every call succeeding and the window closed
    after two frames, the calls after the last poll are: delete the vertex
    array, delete the buffer, delete the program, terminate GLFW.  The vertex
    array goes before the buffer, not after it. *)
Lemma shutdown_deletes_vertex_array_first :
  after_last_poll (trace (snd (main 3 (good_driver 2) world0)))
    = [GlDeleteVertexArrays 1 1; GlDeleteBuffers 1 2; GlDeleteProgram 3;
       GlfwTerminate] /\
  after_last_poll (trace (snd (main 3 (good_driver 2) world0)))
    <> [GlDeleteBuffers 1 2; GlDeleteVertexArrays 1 1; GlDeleteProgram 3;
        GlfwTerminate].
Proof.
  assert (H : after_last_poll (trace (snd (main 3 (good_driver 2) world0)))
              = [GlDeleteVertexArrays 1 1; GlDeleteBuffers 1 2; GlDeleteProgram 3;
                 GlfwTerminate]) by (vm_compute; reflexivity).
  split; [exact H|]. rewrite H. discriminate.
Qed.

(** C5, as amended.  On the transition from Running to Terminated, triggered
    by a window-close request, the program releases its GPU objects in the
    order vertex array, buffer, program, then the windowing and context
    resources, and the process exits with status 0, whether or not a shader
    failed to compile or the program failed to link before. *)
Theorem shutdown_order (d : driver) (N fuel : nat) :
  init_ok d = true -> closes_at d N = true -> (N < fuel)%nat ->
  fst (main fuel d world0) = Some 0 /\
  after_last_poll (trace (snd (main fuel d world0)))
    = [GlDeleteVertexArrays 1 (glGenVertexArrays_ret d);
       GlDeleteBuffers 1 (glGenBuffers_ret d);
       GlDeleteProgram (glCreateProgram_ret d);
       GlfwTerminate].
Proof.
  intros Hinit Hclose Hfuel.
  rewrite (main_graceful d N fuel Hinit Hclose Hfuel). cbn [fst snd trace].
  split; [reflexivity|].
  rewrite app_assoc. apply after_last_poll_tail. reflexivity.
Qed.

(** C5, as amended, for a run in which both shaders fail to compile and the
    program fails to link. *)
Lemma shutdown_order_witness :
  let d := sample_driver 1 4096 GLEW_OK 0 0 0 2 in
  init_ok d = true /\ closes_at d 2 = true /\ (2 < 3)%nat /\
  fst (main 3 d world0) = Some 0.
Proof.
  intros d.
  split; [reflexivity|]. split; [reflexivity|]. split; [lia|].
  exact (proj1 (shutdown_order d 2 3 eq_refl eq_refl (Nat.lt_succ_diag_r 2))).
Defined.

(** C6, counterexample.  When [glfwInit] fails, [main] returns -1, not 0. *)
Lemma glfw_init_failure_exit_code :
  fst (main 1 (sample_driver 0 4096 GLEW_OK 1 1 1 0) world0) = Some (-1) /\
  fst (main 1 (sample_driver 0 4096 GLEW_OK 1 1 1 0) world0) <> Some 0.
Proof.
  assert (H : fst (main 1 (sample_driver 0 4096 GLEW_OK 1 1 1 0) world0)
              = Some (-1)) by (vm_compute; reflexivity).
  split; [exact H|]. rewrite H. discriminate.
Qed.

(** C6, as amended.  The process exit code is 0 on graceful shutdown and -1,
    hence non-zero, on every initialisation failure before the loop is
    entered: when the windowing library fails to initialise, when the
    window and its context cannot be created, and when the extension loader
    fails to initialise. *)
Theorem exit_codes (d : driver) (fuel : nat) :
  (c_not (glfwInit_ret d) = true -> fst (main fuel d world0) = Some (-1)) /\
  (c_not (glfwInit_ret d) = false -> c_not (glfwCreateWindow_ret d) = true ->
   fst (main fuel d world0) = Some (-1)) /\
  (c_not (glfwInit_ret d) = false -> c_not (glfwCreateWindow_ret d) = false ->
   glew_neq_ok (glewInit_ret d) = true ->
   fst (main fuel d world0) = Some (-1)) /\
  (init_ok d = true ->
   forall N, closes_at d N = true -> (N < fuel)%nat ->
   fst (main fuel d world0) = Some 0).
Proof.
  rewrite main_exit_code. unfold init_ok. split; [|split; [|split]].
  - intros ->. reflexivity.
  - intros -> ->. reflexivity.
  - intros -> -> ->. reflexivity.
  - intros -> N Hclose Hfuel.
    destruct (closes_at_run d N fuel Hclose Hfuel) as [_ ->]. reflexivity.
Qed.

(** C6, as amended, on one run for each of the four paths. *)
Lemma exit_codes_witness :
  fst (main 1 (sample_driver 0 4096 GLEW_OK 1 1 1 0) world0) = Some (-1) /\
  fst (main 1 (sample_driver 1 0 GLEW_OK 1 1 1 0) world0) = Some (-1) /\
  fst (main 1 (sample_driver 1 4096 (GLEW_ERROR 1) 1 1 1 0) world0) = Some (-1) /\
  fst (main 3 (good_driver 2) world0) = Some 0.
Proof.
  split; [|split; [|split]].
  - apply (proj1 (exit_codes (sample_driver 0 4096 GLEW_OK 1 1 1 0) 1)).
    reflexivity.
  - apply (proj1 (proj2 (exit_codes (sample_driver 1 0 GLEW_OK 1 1 1 0) 1)));
      reflexivity.
  - apply (proj1 (proj2 (proj2
             (exit_codes (sample_driver 1 4096 (GLEW_ERROR 1) 1 1 1 0) 1))));
      reflexivity.
  - apply (proj2 (proj2 (proj2 (exit_codes (good_driver 2) 3))) eq_refl 2%nat);
      [reflexivity | lia].
Defined.

(** C7.  For every shader source and stage kind: when compilation fails,
    [compile_shader] fetches the diagnostic log, writes it to standard error
    and returns the handle 0, and the program goes on (the failure is not
    fatal: [main] attaches handle 0, draws its frames and exits with 0);
    when compilation succeeds it returns the handle of the compiled stage. *)
Theorem compile_shader_failure_not_fatal (source : string) (ty : shader_type)
  (d : driver) (w : world) :
  let shader := glCreateShader_ret d ty in
  let calls := [GlCreateShader ty; GlShaderSource shader 1 source;
                GlCompileShader shader; GlGetShaderiv shader GL_COMPILE_STATUS] in
  (compile_status d shader = 0 ->
   compile_shader source ty d w =
   (0, mkworld (trace w ++ calls ++ [GlGetShaderInfoLog shader 512])
               (stderr w ++ "Error compiling shader: "
                ++ info_log_buffer 512 (shader_info_log d shader) ++ newline)
               (polls w))) /\
  (compile_status d shader <> 0 ->
   compile_shader source ty d w =
   (shader, mkworld (trace w ++ calls) (stderr w) (polls w))) /\
  (compile_status d shader = 0 ->
   forall N fuel, init_ok d = true -> closes_at d N = true -> (N < fuel)%nat ->
   fst (main fuel d world0) = Some 0 /\
   frames_drawn (trace (snd (main fuel d world0))) = N /\
   In (GlAttachShader (glCreateProgram_ret d) 0) (trace (snd (main fuel d world0)))).
Proof.
  cbv zeta. rewrite compile_shader_run.
  unfold compile_result, compile_calls, compile_message, c_not.
  split; [|split].
  - intros ->. cbn [Z.eqb]. reflexivity.
  - intros Hs. apply Z.eqb_neq in Hs. rewrite Hs.
    rewrite append_empty_r. reflexivity.
  - intros Hs N fuel Hinit Hclose Hfuel.
    rewrite (main_graceful d N fuel Hinit Hclose Hfuel). cbn [fst snd trace].
    split; [reflexivity|]. split.
    + rewrite !frames_drawn_app.
      destruct (setup_observed d) as (_ & -> & _).
      destruct (main_frames_observed d N) as (_ & -> & _).
      cbn [frames_drawn shutdown_calls]. lia.
    + apply in_or_app. left. unfold setup_calls.
      assert (Hr : compile_result d ty = 0).
      { unfold compile_result, c_not. rewrite Hs. reflexivity. }
      apply in_or_app. right. apply in_or_app. right. apply in_or_app. right.
      apply in_or_app. left.
      destruct ty; rewrite Hr; cbn [In]; auto.
Qed.

(** C7 for a vertex shader that fails to compile. *)
Lemma compile_shader_failure_not_fatal_witness :
  let d := sample_driver 1 4096 GLEW_OK 0 1 1 2 in
  compile_status d (glCreateShader_ret d GL_VERTEX_SHADER) = 0 /\
  fst (compile_shader vertex_shader_source GL_VERTEX_SHADER d world0) = 0 /\
  fst (main 3 d world0) = Some 0.
Proof.
  intros d.
  pose proof (compile_shader_failure_not_fatal vertex_shader_source
                GL_VERTEX_SHADER d world0) as (Hfail & _ & Hgo).
  split; [reflexivity|]. split.
  - rewrite (Hfail eq_refl). reflexivity.
  - exact (proj1 (Hgo eq_refl 2%nat 3%nat eq_refl eq_refl (Nat.lt_succ_diag_r 2))).
Defined.

End LifecycleClaims.

Section GeometryClaims.

Import GLSL Host Run.
Local Open Scope R_scope.

(** C8.  The static vertex array defines exactly 6 vertices forming two
    triangles whose positions cover the full clip-space square
    [-1,1] x [-1,1]; the texture coordinate runs over [0,1] x [0,1] exactly
    once per axis, being [(p + 1) / 2] at every point [p] of the square; and
    the data is not changed after the upload: in every run the buffer is
    written at most once, with [vertices], before the first frame. *)
Theorem quad_covers_clip_square :
  (List.length vertices = 24%nat /\ Quad.vertex_count sizeof_vertices = 6%nat) /\
  map (fun i => (Quad.position i, Quad.tex i)) (seq 0 6)
    = [ (mkvec2 (-1) 1, mkvec2 0 1); (mkvec2 (-1) (-1), mkvec2 0 0);
        (mkvec2 1 (-1), mkvec2 1 0);
        (mkvec2 (-1) 1, mkvec2 0 1); (mkvec2 1 (-1), mkvec2 1 0);
        (mkvec2 1 1, mkvec2 1 1) ] /\
  (forall i : nat,
     v4b (Vert.gl_Position (Quad.shaded i)) = 0 /\
     v4a (Vert.gl_Position (Quad.shaded i)) = 1) /\
  (forall p : vec2, Quad.in_square p <-> Quad.covered p) /\
  (forall (j : nat) (u v w : R),
     (j < 2)%nat -> u + v + w = 1 ->
     let p := Quad.weighted u v w (Quad.position (3 * j))
                (Quad.position (3 * j + 1)) (Quad.position (3 * j + 2)) in
     Quad.weighted u v w (Quad.tex (3 * j)) (Quad.tex (3 * j + 1))
       (Quad.tex (3 * j + 2))
     = mkvec2 ((vx p + 1) / 2) ((vy p + 1) / 2)) /\
  (forall (d : driver) (fuel : nat),
     buffer_writes (trace (snd (main fuel d world0)))
     = if init_ok d
       then [GlBufferData GL_ARRAY_BUFFER 96 vertices GL_STATIC_DRAW]
       else []).
Proof.
  split; [split; reflexivity|].
  split.
  { destruct quad_positions as (P0 & P1 & P2 & P3 & P4 & P5).
    destruct quad_texs as (T0 & T1 & T2 & T3 & T4 & T5).
    cbn [map seq]. rewrite P0, P1, P2, P3, P4, P5, T0, T1, T2, T3, T4, T5.
    reflexivity. }
  split; [exact quad_depth|].
  split; [exact square_covered|].
  split; [exact tex_interpolated|].
  intros d fuel. rewrite main_run. unfold init_ok.
  destruct (c_not (glfwInit_ret d)); [reflexivity|].
  destruct (c_not (glfwCreateWindow_ret d)); [reflexivity|].
  destruct (glew_neq_ok (glewInit_ret d)); [reflexivity|].
  cbv zeta. cbn [snd trace negb andb].
  rewrite !buffer_writes_app.
  destruct (setup_observed d) as (_ & _ & ->).
  destruct (main_frames_observed d (frames_run d fuel 0)) as (_ & _ & ->).
  destruct (loop_exits d fuel 0); reflexivity.
Qed.

(** C8 at the first vertex of the first triangle. *)
Lemma quad_covers_clip_square_witness :
  (0 < 2)%nat /\ 1 + 0 + 0 = 1 /\
  Quad.weighted 1 0 0 (Quad.tex 0) (Quad.tex 1) (Quad.tex 2)
  = mkvec2 ((vx (Quad.weighted 1 0 0 (Quad.position 0) (Quad.position 1)
                   (Quad.position 2)) + 1) / 2)
           ((vy (Quad.weighted 1 0 0 (Quad.position 0) (Quad.position 1)
                   (Quad.position 2)) + 1) / 2).
Proof.
  assert (H1 : (0 < 2)%nat) by lia.
  assert (H2 : 1 + 0 + 0 = 1) by lra.
  split; [exact H1|]. split; [exact H2|].
  exact (proj1 (proj2 (proj2 (proj2 (proj2 quad_covers_clip_square))))
           0%nat 1 0 0 H1 H2).
Defined.

End GeometryClaims.

(* ===================================================================== *)
(** * Part IV: further properties of the code                            *)
(* ===================================================================== *)

(** ** More observations on the traces of [main] *)

Section MoreTraceFacts.

Import Host Run More.
Local Open Scope Z_scope.

Lemma count_calls_app (p : call -> bool) (t u : list call) :
  count_calls p (t ++ u) = (count_calls p t + count_calls p u)%nat.
Proof. unfold count_calls. rewrite filter_app, length_app. reflexivity. Qed.

Lemma upload_locations_app (t u : list call) :
  upload_locations (t ++ u) = upload_locations t ++ upload_locations u.
Proof.
  induction t as [|c t IH]; [reflexivity|].
  destruct c; cbn [app upload_locations]; rewrite IH; reflexivity.
Qed.

Lemma deleted_shaders_app (t u : list call) :
  deleted_shaders (t ++ u) = deleted_shaders t ++ deleted_shaders u.
Proof.
  induction t as [|c t IH]; [reflexivity|].
  destruct c; cbn [app deleted_shaders]; rewrite IH; reflexivity.
Qed.

Lemma attached_shaders_app (t u : list call) :
  attached_shaders (t ++ u) = attached_shaders t ++ attached_shaders u.
Proof.
  induction t as [|c t IH]; [reflexivity|].
  destruct c; cbn [app attached_shaders]; rewrite IH; reflexivity.
Qed.



Variable d : driver.

(** The three conditions on which the calls before the loop depend. *)
Ltac setup_cases :=
  unfold setup_calls, compile_calls, compile_result;
  destruct (c_not (compile_status d (glCreateShader_ret d GL_VERTEX_SHADER)));
  destruct (c_not (compile_status d (glCreateShader_ret d GL_FRAGMENT_SHADER)));
  destruct (c_not (link_status d (glCreateProgram_ret d))).

Lemma setup_counts (p : call -> bool) :
  (forall c,
     p c = is_terminate c \/ p c = is_clear c \/ p c = is_swap c \/
     p c = is_poll_events c \/ p c = is_draw c \/ p c = is_delete c) ->
  count_calls p (setup_calls d) = 0%nat.
Proof.
  intros Hp.
  assert (H : forall t : list call,
            Forall (fun c => is_terminate c = false /\ is_clear c = false /\
                             is_swap c = false /\ is_poll_events c = false /\
                             is_draw c = false /\ is_delete c = false) t ->
            count_calls p t = 0%nat).
  { induction 1 as [|c t (H1 & H2 & H3 & H4 & H5 & H6) _ IH]; [reflexivity|].
    unfold count_calls in *. cbn [filter].
    destruct (Hp c) as [E | [E | [E | [E | [E | E]]]]]; rewrite E;
      rewrite ?H1, ?H2, ?H3, ?H4, ?H5, ?H6; exact IH. }
  apply H. setup_cases; repeat constructor.
Qed.

Lemma setup_shaders :
  deleted_shaders (setup_calls d)
    = [compile_result d GL_VERTEX_SHADER; compile_result d GL_FRAGMENT_SHADER] /\
  attached_shaders (setup_calls d)
    = [compile_result d GL_VERTEX_SHADER; compile_result d GL_FRAGMENT_SHADER] /\
  upload_locations (setup_calls d) = [] /\
  count_calls is_uniform_lookup (setup_calls d) = 1%nat /\
  count_calls is_program_log (setup_calls d)
    = (if c_not (link_status d (glCreateProgram_ret d)) then 1 else 0)%nat.
Proof. setup_cases; repeat split; reflexivity. Qed.

Lemma frames_counts (p : call -> bool) (per_frame : nat)
  (window : GLFWwindow_ptr) (program : GLuint) (loc : GLint) (VAO : GLuint) :
  (forall cs, count_calls p (frame_calls window program loc VAO cs) = per_frame) ->
  forall (n : nat) (cs : F32.float),
  count_calls p (frames_calls window program loc VAO n cs) = (n * per_frame)%nat.
Proof.
  intros Hp. induction n as [|n IH]; intros cs; [reflexivity|].
  cbn [frames_calls]. rewrite count_calls_app, Hp, IH. reflexivity.
Qed.

Lemma main_frames_counts (n : nat) :
  count_calls is_terminate (main_frames d n) = 0%nat /\
  count_calls is_delete (main_frames d n) = 0%nat /\
  count_calls is_uniform_lookup (main_frames d n) = 0%nat /\
  count_calls is_program_log (main_frames d n) = 0%nat /\
  count_calls is_clear (main_frames d n) = n /\
  count_calls is_swap (main_frames d n) = n /\
  count_calls is_poll_events (main_frames d n) = n.
Proof.
  unfold main_frames.
  repeat split;
    first [ rewrite (frames_counts _ 0) by reflexivity; lia
          | rewrite (frames_counts _ 1) by reflexivity; lia ].
Qed.

Lemma main_frames_projections (n : nat) :
  deleted_shaders (main_frames d n) = [] /\
  attached_shaders (main_frames d n) = [] /\
  upload_locations (main_frames d n)
    = repeat (uniform_location d (glCreateProgram_ret d) "cloud_shift") n /\
  filter is_draw (main_frames d n) = repeat (GlDrawArrays GL_TRIANGLES 0 6) n.
Proof.
  unfold main_frames. generalize F32.zero.
  induction n as [|n IH]; intros cs; [repeat split; reflexivity|].
  destruct (IH (F32.add cs F32.lit_0_02)) as (H1 & H2 & H3 & H4).
  cbn [frames_calls frame_calls app deleted_shaders attached_shaders upload_locations
       filter is_draw repeat].
  rewrite H1, H2, H3, H4. repeat split.
Qed.

End MoreTraceFacts.

(** ** Strings: lengths and the cut of an information log *)

Section LogFacts.

Import Host Run.





End LogFacts.

(** ** The properties *)

Section HostProperties.

Import Host Run More.
Local Open Scope Z_scope.

(** Rewrites a goal about [main] into one goal per path of [main]. *)
Ltac main_paths d :=
  rewrite ?main_run;
  destruct (c_not (glfwInit_ret d)) eqn:Hglfw;
    [|destruct (c_not (glfwCreateWindow_ret d)) eqn:Hwindow;
      [|destruct (glew_neq_ok (glewInit_ret d)) eqn:Hglew]].

(** X1.  The initialisation failures.  When [glfwInit] fails, [main] calls
    nothing else; when no window can be created it terminates GLFW; both
    times it writes nothing to standard error.  When [glewInit] fails it
    writes one line and returns without terminating GLFW, the window and its
    context left as they are. *)
Theorem initialisation_failures (d : driver) (fuel : nat) :
  let w := snd (main fuel d world0) in
  (c_not (glfwInit_ret d) = true ->
   trace w = [GlfwInit] /\ stderr w = EmptyString) /\
  (c_not (glfwInit_ret d) = false -> c_not (glfwCreateWindow_ret d) = true ->
   trace w = [GlfwInit; GlfwCreateWindow 1280 960 "Clouds"; GlfwTerminate] /\
   stderr w = EmptyString) /\
  (c_not (glfwInit_ret d) = false -> c_not (glfwCreateWindow_ret d) = false ->
   glew_neq_ok (glewInit_ret d) = true ->
   trace w = [GlfwInit; GlfwCreateWindow 1280 960 "Clouds";
              GlfwMakeContextCurrent (glfwCreateWindow_ret d);
              GlewExperimental true; GlewInit] /\
   stderr w = ("Failed to initialize GLEW" ++ newline)%string /\
   count_calls is_terminate (trace w) = 0%nat).
Proof.
  cbv zeta. rewrite main_run. split; [|split].
  - intros ->. split; reflexivity.
  - intros -> ->. split; reflexivity.
  - intros -> -> ->. repeat split.
Qed.

(** X1 on a driver for each of the three failures. *)
Lemma initialisation_failures_witness :
  trace (snd (main 1 (sample_driver 0 4096 GLEW_OK 1 1 1 0) world0)) = [GlfwInit] /\
  trace (snd (main 1 (sample_driver 1 0 GLEW_OK 1 1 1 0) world0))
    = [GlfwInit; GlfwCreateWindow 1280 960 "Clouds"; GlfwTerminate] /\
  count_calls is_terminate
    (trace (snd (main 1 (sample_driver 1 4096 (GLEW_ERROR 1) 1 1 1 0) world0)))
    = 0%nat.
Proof.
  split; [|split].
  - exact (proj1 (proj1 (initialisation_failures
                           (sample_driver 0 4096 GLEW_OK 1 1 1 0) 1) eq_refl)).
  - exact (proj1 (proj1 (proj2 (initialisation_failures
                                  (sample_driver 1 0 GLEW_OK 1 1 1 0) 1))
                        eq_refl eq_refl)).
  - exact (proj2 (proj2 (proj2 (proj2 (initialisation_failures
                                  (sample_driver 1 4096 (GLEW_ERROR 1) 1 1 1 0) 1))
                               eq_refl eq_refl eq_refl))).
Defined.

(** X2.  [glfwTerminate] is called at most once in a run, and then it is the
    last call: nothing follows it.  It is called exactly when window creation
    failed or [main] went through the loop and returned. *)
Theorem terminate_once_and_last (d : driver) (fuel : nat) :
  let r := main fuel d world0 in
  count_calls is_terminate (trace (snd r))
  = (if c_not (glfwInit_ret d) then 0
     else if c_not (glfwCreateWindow_ret d) then 1
     else if glew_neq_ok (glewInit_ret d) then 0
     else match fst r with Some _ => 1 | None => 0 end)%nat /\
  (count_calls is_terminate (trace (snd r)) = 1%nat ->
   last (trace (snd r)) GlfwInit = GlfwTerminate).
Proof.
  cbv zeta. main_paths d; cbn [fst snd trace].
  - split; [reflexivity | discriminate].
  - split; [reflexivity | intros _; reflexivity].
  - split; [reflexivity | discriminate].
  - cbv zeta. cbn [fst snd trace]. rewrite !count_calls_app.
    rewrite (setup_counts d is_terminate) by auto.
    destruct (main_frames_counts d (frames_run d fuel 0)) as (-> & _).
    destruct (loop_exits d fuel 0); cbn [count_calls filter is_terminate
      shutdown_calls List.length Nat.add]; split; try reflexivity; try discriminate.
    intros _. unfold shutdown_calls.
    change (GlfwWindowShouldClose (glfwCreateWindow_ret d)
            :: [GlDeleteVertexArrays 1 (glGenVertexArrays_ret d);
                GlDeleteBuffers 1 (glGenBuffers_ret d);
                GlDeleteProgram (glCreateProgram_ret d); GlfwTerminate])
      with ([GlfwWindowShouldClose (glfwCreateWindow_ret d);
             GlDeleteVertexArrays 1 (glGenVertexArrays_ret d);
             GlDeleteBuffers 1 (glGenBuffers_ret d);
             GlDeleteProgram (glCreateProgram_ret d)] ++ [GlfwTerminate]).
    rewrite !app_assoc. apply last_last.
Qed.

(** X2 on a graceful run of two frames. *)
Lemma terminate_once_and_last_witness :
  let t := trace (snd (main 3 (good_driver 2) world0)) in
  count_calls is_terminate t = 1%nat /\ last t GlfwInit = GlfwTerminate.
Proof.
  intros t.
  assert (H : count_calls is_terminate t = 1%nat) by (vm_compute; reflexivity).
  split; [exact H|].
  exact (proj2 (terminate_once_and_last (good_driver 2) 3) H).
Defined.

(** X3.  A failure to link is reported and is not fatal: [main] then fetches
    the program's information log once and writes it, after the compile
    errors if any, to standard error; when the window is closed it has drawn
    its frames all the same and returns 0.  When linking succeeds the log is
    not fetched. *)
Theorem link_failure_not_fatal (d : driver) (fuel : nat) :
  init_ok d = true ->
  let r := main fuel d world0 in
  let program := glCreateProgram_ret d in
  count_calls is_program_log (trace (snd r))
    = (if c_not (link_status d program) then 1 else 0)%nat /\
  stderr (snd r)
    = (compile_message d GL_VERTEX_SHADER ++ compile_message d GL_FRAGMENT_SHADER
       ++ (if c_not (link_status d program)
           then "Error linking shader program: "
                ++ info_log_buffer 512 (program_info_log d program) ++ newline
           else EmptyString))%string /\
  (forall N, closes_at d N = true -> (N < fuel)%nat ->
   fst r = Some 0 /\ frames_drawn (trace (snd r)) = N).
Proof.
  unfold init_ok. intros Hinit.
  apply andb_true_iff in Hinit as [Hinit Hglew].
  apply andb_true_iff in Hinit as [Hglfw Hwin].
  apply negb_true_iff in Hglfw, Hwin, Hglew.
  cbv zeta. rewrite main_run, Hglfw, Hwin, Hglew. cbv zeta.
  unfold setup_world, link_message. cbn [fst snd trace stderr].
  split; [|split].
  - rewrite !count_calls_app.
    destruct (setup_shaders d) as (_ & _ & _ & _ & ->).
    destruct (main_frames_counts d (frames_run d fuel 0)) as (_ & _ & _ & -> & _).
    destruct (loop_exits d fuel 0); cbn [count_calls filter is_program_log
      shutdown_calls List.length]; lia.
  - reflexivity.
  - intros N Hclose Hfuel.
    destruct (closes_at_run d N fuel Hclose Hfuel) as [-> ->].
    split; [reflexivity|].
    rewrite !frames_drawn_app.
    destruct (setup_observed d) as (_ & -> & _).
    destruct (main_frames_observed d N) as (_ & -> & _).
    cbn [frames_drawn shutdown_calls]. lia.
Qed.

(** X3 on a run in which linking fails and the window is closed after two
    frames. *)
Lemma link_failure_not_fatal_witness :
  let d := sample_driver 1 4096 GLEW_OK 1 1 0 2 in
  init_ok d = true /\ closes_at d 2 = true /\ (2 < 3)%nat /\
  fst (main 3 d world0) = Some 0.
Proof.
  intros d. split; [reflexivity|]. split; [reflexivity|]. split; [lia|].
  exact (proj1 (proj2 (proj2 (link_failure_not_fatal d 3 eq_refl))
                  2%nat eq_refl (Nat.lt_succ_diag_r 2))).
Defined.

Lemma append_empty_inv (s t : string) :
  (s ++ t)%string = EmptyString -> s = EmptyString /\ t = EmptyString.
Proof. destruct s; simpl; [auto | discriminate]. Qed.

(** X4.  Once GLFW, the window and GLEW are up, a run writes nothing to
    standard error exactly when both shaders compile and the program links:
    the loop and the shutdown never write, whatever their length. *)
Theorem silent_iff_no_failure (d : driver) (fuel : nat) :
  init_ok d = true ->
  (stderr (snd (main fuel d world0)) = EmptyString <->
   c_not (compile_status d (glCreateShader_ret d GL_VERTEX_SHADER)) = false /\
   c_not (compile_status d (glCreateShader_ret d GL_FRAGMENT_SHADER)) = false /\
   c_not (link_status d (glCreateProgram_ret d)) = false).
Proof.
  unfold init_ok. intros Hinit.
  apply andb_true_iff in Hinit as [Hinit Hglew].
  apply andb_true_iff in Hinit as [Hglfw Hwin].
  apply negb_true_iff in Hglfw, Hwin, Hglew.
  rewrite main_run, Hglfw, Hwin, Hglew. cbv zeta. cbn [snd stderr].
  unfold setup_world, compile_message, link_message. cbn [stderr].
  destruct (c_not (compile_status d (glCreateShader_ret d GL_VERTEX_SHADER)));
    destruct (c_not (compile_status d (glCreateShader_ret d GL_FRAGMENT_SHADER)));
    destruct (c_not (link_status d (glCreateProgram_ret d)));
    (split;
     [ intros H; try (cbn [append] in H; discriminate H); repeat split
     | intros (H1 & H2 & H3); try discriminate; reflexivity ]).
Qed.

(** X4 on a run in which nothing fails. *)
Lemma silent_iff_no_failure_witness :
  init_ok (good_driver 2) = true /\
  stderr (snd (main 3 (good_driver 2) world0)) = EmptyString.
Proof.
  split; [reflexivity|].
  apply (proj2 (silent_iff_no_failure (good_driver 2) 3 eq_refl)).
  split; [reflexivity|]. split; reflexivity.
Defined.



(** X6.  The shader handles [main] attaches and later deletes are the two
    results of [compile_shader], in that order, and nothing else.  So a
    stage that failed to compile is attached and deleted as handle 0, and
    the shader object that [glCreateShader] made for it is never deleted. *)
Theorem shaders_attached_and_deleted (d : driver) (fuel : nat) :
  let t := trace (snd (main fuel d world0)) in
  let result := fun ty =>
    if c_not (compile_status d (glCreateShader_ret d ty))
    then 0 else glCreateShader_ret d ty in
  attached_shaders t
    = (if init_ok d then [result GL_VERTEX_SHADER; result GL_FRAGMENT_SHADER]
       else []) /\
  deleted_shaders t = attached_shaders t /\
  (forall ty,
     c_not (compile_status d (glCreateShader_ret d ty)) = true ->
     glCreateShader_ret d ty <> 0 ->
     glCreateShader_ret d ty <> result (other_stage ty) ->
     ~ In (glCreateShader_ret d ty) (deleted_shaders t)).
Proof.
  cbv zeta.
  assert (H : attached_shaders (trace (snd (main fuel d world0)))
              = (if init_ok d
                 then [compile_result d GL_VERTEX_SHADER;
                       compile_result d GL_FRAGMENT_SHADER]
                 else []) /\
              deleted_shaders (trace (snd (main fuel d world0)))
              = attached_shaders (trace (snd (main fuel d world0)))).
  { unfold init_ok. main_paths d; cbn [snd trace negb andb];
      try (split; reflexivity).
    cbv zeta. cbn [snd trace]. rewrite !deleted_shaders_app, !attached_shaders_app.
    destruct (setup_shaders d) as (-> & -> & _).
    destruct (main_frames_projections d (frames_run d fuel 0)) as (-> & -> & _).
    destruct (loop_exits d fuel 0); split; reflexivity. }
  destruct H as [Ha Hd]. unfold compile_result in Ha.
  split; [exact Ha|]. split; [exact Hd|].
  intros ty Hfail Hnz Hother. rewrite Hd, Ha.
  destruct (init_ok d); [|intros []].
  destruct ty; cbn [other_stage] in Hother; rewrite Hfail;
    intros [Hin | [Hin | []]];
    first [exact (Hnz (eq_sym Hin)) | exact (Hother (eq_sym Hin))].
Qed.

(** X6 for a vertex shader that fails to compile: its object, handle 1, is
    never deleted. *)
Lemma shaders_attached_and_deleted_witness :
  let d := sample_driver 1 4096 GLEW_OK 0 1 1 2 in
  ~ In 1 (deleted_shaders (trace (snd (main 3 d world0)))).
Proof.
  intros d.
  apply (proj2 (proj2 (shaders_attached_and_deleted d 3)) GL_VERTEX_SHADER).
  - reflexivity.
  - discriminate.
  - discriminate.
Defined.




Lemma stays_open_run (d : driver) (fuel : nat) :
  stays_open d fuel = true ->
  frames_run d fuel 0 = fuel /\ loop_exits d fuel 0 = false.
Proof.
  unfold stays_open. intros Hopen. rewrite forallb_forall in Hopen.
  assert (H : forall f p, (p + f <= fuel)%nat ->
                frames_run d f p = f /\ loop_exits d f p = false).
  { induction f as [|f IH]; intros p Hp; [split; reflexivity|].
    cbn [frames_run loop_exits].
    rewrite (Hopen p) by (apply in_seq; lia).
    destruct (IH (S p)) as [-> ->]; [lia | split; reflexivity]. }
  apply H. lia.
Qed.

(** X8.  The close flag is the only way out of the render loop: as long as
    it stays clear the loop keeps drawing, one frame for each time the flag
    is read, and nothing is deleted and GLFW is not terminated. *)
Theorem loop_runs_while_open (d : driver) (fuel : nat) :
  init_ok d = true -> stays_open d fuel = true ->
  let r := main fuel d world0 in
  fst r = None /\
  frames_drawn (trace (snd r)) = fuel /\
  polls (snd r) = fuel /\
  count_calls is_delete (trace (snd r)) = 0%nat /\
  count_calls is_terminate (trace (snd r)) = 0%nat.
Proof.
  unfold init_ok. intros Hinit Hopen.
  apply andb_true_iff in Hinit as [Hinit Hglew].
  apply andb_true_iff in Hinit as [Hglfw Hwin].
  apply negb_true_iff in Hglfw, Hwin, Hglew.
  cbv zeta. rewrite main_run, Hglfw, Hwin, Hglew. cbv zeta.
  destruct (stays_open_run d fuel Hopen) as [-> ->]. cbn [fst snd trace polls].
  rewrite app_nil_r, !count_calls_app, frames_drawn_app.
  destruct (setup_observed d) as (_ & -> & _).
  destruct (main_frames_observed d fuel) as (_ & -> & _).
  rewrite (setup_counts d is_delete), (setup_counts d is_terminate) by auto 10.
  destruct (main_frames_counts d fuel) as (-> & -> & _).
  repeat split; lia.
Qed.

(** X8 on a window that is never closed, for 5 reads of the flag. *)
Lemma loop_runs_while_open_witness :
  init_ok open_driver = true /\ stays_open open_driver 5 = true /\
  fst (main 5 open_driver world0) = None /\
  frames_drawn (trace (snd (main 5 open_driver world0))) = 5%nat.
Proof.
  split; [reflexivity|]. split; [reflexivity|].
  pose proof (loop_runs_while_open open_driver 5 eq_refl eq_refl) as H.
  exact (conj (proj1 H) (proj1 (proj2 H))).
Defined.

(** X9.  A frame is one clear, one draw, one buffer swap and one event
    poll: in every run these four are called equally often.  Every draw is
    [glDrawArrays(GL_TRIANGLES, 0, 6)].  The close flag is read once per
    frame, and once more when [main] leaves the loop and returns 0. *)
Theorem frame_composition (d : driver) (fuel : nat) :
  let r := main fuel d world0 in
  let t := trace (snd r) in
  let n := frames_drawn t in
  count_calls is_clear t = n /\
  count_calls is_swap t = n /\
  count_calls is_poll_events t = n /\
  filter is_draw t = repeat (GlDrawArrays GL_TRIANGLES 0 6) n /\
  polls (snd r) = match fst r with Some 0 => S n | _ => n end.
Proof.
  cbv zeta. main_paths d; cbn [fst snd trace polls];
    try (repeat split; reflexivity).
  cbv zeta. cbn [fst snd trace polls].
  rewrite !count_calls_app, !frames_drawn_app, !filter_app.
  destruct (setup_observed d) as (_ & -> & _).
  destruct (main_frames_observed d (frames_run d fuel 0)) as (_ & -> & _).
  rewrite (setup_counts d is_clear), (setup_counts d is_swap),
    (setup_counts d is_poll_events) by auto 10.
  destruct (main_frames_counts d (frames_run d fuel 0))
    as (_ & _ & _ & _ & -> & -> & ->).
  destruct (main_frames_projections d (frames_run d fuel 0)) as (_ & _ & _ & ->).
  assert (Hs : filter is_draw (setup_calls d) = []).
  { pose proof (setup_counts d is_draw ltac:(auto 10)) as H.
    unfold count_calls in H. apply length_zero_iff_nil. exact H. }
  rewrite Hs.
  destruct (loop_exits d fuel 0);
    cbn [count_calls filter is_clear is_swap is_poll_events is_draw frames_drawn
         shutdown_calls List.length app];
    rewrite ?app_nil_r, ?Nat.add_0_r; repeat split; lia.
Qed.

(** X10.  The location of the uniform is looked up once, after linking and
    before the loop, and every upload goes to the location that lookup gave,
    whatever it is: [main] does not check it, also not against -1. *)
Theorem uploads_use_looked_up_location (d : driver) (fuel : nat) :
  let t := trace (snd (main fuel d world0)) in
  count_calls is_uniform_lookup t = (if init_ok d then 1 else 0)%nat /\
  upload_locations t
    = repeat (uniform_location d (glCreateProgram_ret d) "cloud_shift")
             (frames_drawn t).
Proof.
  cbv zeta. unfold init_ok. main_paths d; cbn [snd trace negb andb];
    try (split; reflexivity).
  cbv zeta. cbn [snd trace].
  rewrite !count_calls_app, !upload_locations_app, !frames_drawn_app.
  destruct (setup_shaders d) as (_ & _ & -> & -> & _).
  destruct (setup_observed d) as (_ & -> & _).
  destruct (main_frames_observed d (frames_run d fuel 0)) as (_ & -> & _).
  destruct (main_frames_counts d (frames_run d fuel 0)) as (_ & _ & -> & _).
  destruct (main_frames_projections d (frames_run d fuel 0)) as (_ & _ & -> & _).
  destruct (loop_exits d fuel 0);
    cbn [count_calls filter is_uniform_lookup upload_locations frames_drawn
         shutdown_calls List.length app];
    rewrite ?app_nil_r, ?Nat.add_0_r; split; reflexivity.
Qed.

Lemma forallb_repeat {A : Type} (p : A -> bool) (x : A) (n : nat) :
  p x = true -> forallb p (repeat x n) = true.
Proof. intros H. induction n as [|n IH]; [reflexivity|]. cbn. now rewrite H, IH. Qed.

Lemma frames_declare_no_layout (d : driver) (n : nat) :
  filter is_attribute_layout (main_frames d n) = [].
Proof.
  pose proof (frames_counts is_attribute_layout 0
                (glfwCreateWindow_ret d) (glCreateProgram_ret d)
                (uniform_location d (glCreateProgram_ret d) "cloud_shift")
                (glGenVertexArrays_ret d) (fun _ => eq_refl) n F32.zero) as H.
  unfold count_calls in H. apply length_zero_iff_nil.
  unfold main_frames. rewrite H. lia.
Qed.

(** X18.  The vertex layout that [main] declares is the layout of
    [vertices], and no draw reads outside the buffer: attribute 0 is two
    floats at byte 0 and attribute 1 two floats at byte 8 of every 16-byte
    vertex, declared once each; every draw of every run fetches, for both
    attributes, only bytes of the [sizeof(vertices)] bytes uploaded; and the
    draws use the buffer to its end: the texture coordinate of the sixth
    vertex ends at the last byte. *)
Theorem draws_fetch_inside_buffer (d : driver) (fuel : nat) :
  let t := trace (snd (main fuel d world0)) in
  filter is_attribute_layout t
    = (if init_ok d
       then [GlVertexAttribPointer 0 2 GL_FLOAT false Quad.stride Quad.position_pointer;
             GlVertexAttribPointer 1 2 GL_FLOAT false Quad.stride
               Quad.tex_coord_pointer]
       else []) /\
  forallb (fun a => forallb (fetches_inside sizeof_vertices a) (filter is_draw t))
          (filter is_attribute_layout t) = true /\
  forallb (fun a => forallb (fetches_inside (sizeof_vertices - 1) a) (filter is_draw t))
          (filter is_attribute_layout t)
    = negb (init_ok d) || (frames_drawn t =? 0)%nat.
Proof.
  cbv zeta. unfold init_ok. main_paths d; cbn [snd trace negb andb orb];
    try (repeat split; reflexivity).
  cbv zeta. cbn [snd trace].
  rewrite !filter_app, !frames_drawn_app.
  destruct (setup_observed d) as (_ & -> & _).
  destruct (main_frames_observed d (frames_run d fuel 0)) as (_ & -> & _).
  destruct (main_frames_projections d (frames_run d fuel 0)) as (_ & _ & _ & ->).
  rewrite frames_declare_no_layout.
  assert (Hs : filter is_draw (setup_calls d) = []).
  { pose proof (setup_counts d is_draw ltac:(auto 10)) as H.
    unfold count_calls in H. apply length_zero_iff_nil. exact H. }
  assert (Hl : filter is_attribute_layout (setup_calls d)
               = [GlVertexAttribPointer 0 2 GL_FLOAT false 16 0;
                  GlVertexAttribPointer 1 2 GL_FLOAT false 16 8]).
  { unfold setup_calls, compile_calls.
    destruct (c_not (compile_status d (glCreateShader_ret d GL_VERTEX_SHADER)));
      destruct (c_not (compile_status d (glCreateShader_ret d GL_FRAGMENT_SHADER)));
      destruct (c_not (link_status d (glCreateProgram_ret d))); reflexivity. }
  rewrite Hs, Hl.
  assert (Ht : forall tail : list call,
            (tail = [] \/
             tail = GlfwWindowShouldClose (glfwCreateWindow_ret d) :: shutdown_calls d) ->
            filter is_attribute_layout tail = [] /\ filter is_draw tail = [] /\
            frames_drawn tail = 0%nat).
  { intros tail [-> | ->]; repeat split; reflexivity. }
  destruct (Ht (if loop_exits d fuel 0
                then GlfwWindowShouldClose (glfwCreateWindow_ret d) :: shutdown_calls d
                else []))
    as (-> & -> & ->); [destruct (loop_exits d fuel 0); auto|].
  rewrite !app_nil_r, Nat.add_0_r. cbn [app].
  split; [reflexivity|]. split.
  - cbn [forallb]. rewrite !forallb_repeat by reflexivity. reflexivity.
  - destruct (frames_run d fuel 0) as [|n]; [reflexivity|].
    change (sizeof_vertices - 1) with 95. cbn [forallb].
    rewrite (forallb_repeat
               (fetches_inside 95 (GlVertexAttribPointer 0 2 GL_FLOAT false 16 0)))
      by reflexivity.
    reflexivity.
Qed.

End HostProperties.

(** ** The noise function *)

Section NoiseProperties.

Import GLSL.
Local Open Scope R_scope.

Lemma floor_add_int (x : R) (k : Z) : floor (x + IZR k) = floor x + IZR k.
Proof.
  unfold floor. rewrite <- plus_IZR. f_equal. symmetry. apply Int_part_spec.
  rewrite plus_IZR. destruct (base_Int_part x) as [H1 H2]. lra.
Qed.

Lemma fract_add_int (x : R) (k : Z) : fract (x + IZR k) = fract x.
Proof. unfold fract. rewrite floor_add_int. lra. Qed.

Lemma floor_int (k : Z) : floor (IZR k) = IZR k.
Proof.
  unfold floor. f_equal. symmetry. apply Int_part_spec. lra.
Qed.

Lemma fract_int (k : Z) : fract (IZR k) = 0.
Proof. unfold fract. rewrite floor_int. lra. Qed.

Lemma smoothstep_unit_0 : smoothstep 0.0 1.0 0 = 0.
Proof.
  unfold smoothstep, clamp, Rmin, Rmax.
  replace ((0 - 0.0) / (1.0 - 0.0)) with 0
    by (unfold Rdiv; replace (0 - 0.0) with 0 by lra; ring).
  destruct (Rle_dec 0 0); [|lra]. destruct (Rle_dec 0 1); lra.
Qed.

(** X11.  The noise and the sum of its octaves stay in range: [smooth_noise]
    is at least 0 and below 1 everywhere, and the value that [main] feeds to
    [smoothstep] is at least 0 and below 1.75, for every texture coordinate
    and every animation scalar. *)
Theorem noise_in_range (st tex_coord : vec2) (cloud_shift : R) :
  (0 <= Frag.smooth_noise st /\ Frag.smooth_noise st < 1) /\
  (0 <= Frag.main_n tex_coord cloud_shift /\
   Frag.main_n tex_coord cloud_shift < 1.75).
Proof.
  split; [apply smooth_noise_range | apply main_n_range].
Qed.

(** X12.  On a lattice point the noise is the hash of that point: for
    integers i and j, [smooth_noise (i, j)] is
    [fract(sin(i + 57 j + 1) * 43758.5453)], the value of the lower left
    corner of the cell, with no share of the other three corners. *)
Theorem noise_on_lattice (i j : Z) :
  Frag.smooth_noise (mkvec2 (IZR i) (IZR j))
  = fract (sin (IZR i + 57 * IZR j + 1) * 43758.5453).
Proof.
  unfold Frag.smooth_noise. cbv zeta.
  unfold smoothstep2, vec2_of, floor2, fract2, vadd, dot. cbn [vx vy].
  rewrite !fract_int, !floor_int, smoothstep_unit_0. unfold mix.
  replace (IZR i * 1.0 + IZR j * 57.0 + 1.0) with (IZR i + 57 * IZR j + 1) by lra.
  lra.
Qed.

(** X13.  The noise repeats along the lattice vector (57, -1): the hash
    depends on a lattice point (i, j) through i + 57 j only, so for every
    point [st] and every integer k,
    [smooth_noise (st + k * (57, -1)) = smooth_noise st].  For the picture:
    moving the texture coordinate by k * (11.4, -0.2) changes no octave and
    hence not the colour. *)
Theorem noise_repeats (st : vec2) (k : Z) (g : Frag.globals) :
  Frag.smooth_noise (mkvec2 (vx st + 57 * IZR k) (vy st - IZR k))
  = Frag.smooth_noise st /\
  Frag.frag_color
    (Frag.main (Frag.mkglobals
                  (mkvec2 (vx (Frag.tex_coord g) + 11.4 * IZR k)
                          (vy (Frag.tex_coord g) - 0.2 * IZR k))
                  (Frag.cloud_shift g) (Frag.frag_color g)))
  = Frag.frag_color (Frag.main g).
Proof.
  assert (Hrep : forall (p : vec2) (n : Z),
            Frag.smooth_noise (mkvec2 (vx p + 57 * IZR n) (vy p - IZR n))
            = Frag.smooth_noise p).
  { intros p n. unfold Frag.smooth_noise. cbv zeta.
    unfold smoothstep2, vec2_of, floor2, fract2, vadd, dot. cbn [vx vy].
    replace (vx p + 57 * IZR n) with (vx p + IZR (57 * n))
      by (rewrite mult_IZR; lra).
    replace (vy p - IZR n) with (vy p + IZR (- n)) by (rewrite opp_IZR; lra).
    rewrite !fract_add_int, !floor_add_int, mult_IZR, opp_IZR.
    set (fx := floor (vx p)). set (fy := floor (vy p)).
    replace ((fx + 57 * IZR n) * 1.0 + (fy + - IZR n) * 57.0 + 1.0)
      with (fx * 1.0 + fy * 57.0 + 1.0) by lra.
    replace ((fx + 57 * IZR n + 1.0) * 1.0 + (fy + - IZR n + 0.0) * 57.0 + 1.0)
      with ((fx + 1.0) * 1.0 + (fy + 0.0) * 57.0 + 1.0) by lra.
    replace ((fx + 57 * IZR n + 0.0) * 1.0 + (fy + - IZR n + 1.0) * 57.0 + 1.0)
      with ((fx + 0.0) * 1.0 + (fy + 1.0) * 57.0 + 1.0) by lra.
    replace ((fx + 57 * IZR n + 1.0) * 1.0 + (fy + - IZR n + 1.0) * 57.0 + 1.0)
      with ((fx + 1.0) * 1.0 + (fy + 1.0) * 57.0 + 1.0) by lra.
    reflexivity. }
  split; [apply Hrep|].
  unfold Frag.main. cbv zeta. cbn [Frag.frag_color Frag.tex_coord Frag.cloud_shift].
  set (tc := Frag.tex_coord g). set (s := Frag.cloud_shift g).
  assert (Hn : Frag.main_n (mkvec2 (vx tc + 11.4 * IZR k) (vy tc - 0.2 * IZR k)) s
               = Frag.main_n tc s).
  { unfold Frag.main_n. cbv zeta.
    destruct (octave_coords tc s) as (E0 & E1 & E2).
    destruct (octave_coords (mkvec2 (vx tc + 11.4 * IZR k) (vy tc - 0.2 * IZR k)) s)
      as (F0 & F1 & F2).
    cbn [vx vy] in F0, F1, F2.
    rewrite F0, F1, F2, E0, E1, E2.
    rewrite <- (Hrep (mkvec2 (5 * vx tc + 0.15 * s) (5 * vy tc)) k).
    rewrite <- (Hrep (mkvec2 (10 * vx tc + 0.25 * s) (10 * vy tc - 0.05 * s))
                  (2 * k)%Z).
    rewrite <- (Hrep (mkvec2 (20 * vx tc + 0.5 * s) (20 * vy tc - 0.1 * s))
                  (4 * k)%Z).
    cbn [vx vy]. rewrite !mult_IZR.
    f_equal; [|f_equal]; [|f_equal|f_equal]; f_equal; apply vec2_eq; lra. }
  rewrite Hn. reflexivity.
Qed.

End NoiseProperties.

(** ** The colour of a fragment *)

Section ColourProperties.

Import GLSL.
Local Open Scope R_scope.






End ColourProperties.

(** ** The animation scalar stays finite, bounded and in order *)

Section ScalarOrder.

Local Open Scope Z_scope.

Lemma digits2_pos_upper (m : positive) : Zpos m < 2 ^ Zpos (digits2_pos m).
Proof.
  induction m as [m IH|m IH|]; simpl digits2_pos.
  - rewrite Pos2Z.inj_succ, Z.pow_succ_r by lia. lia.
  - rewrite Pos2Z.inj_succ, Z.pow_succ_r by lia. lia.
  - simpl. lia.
Qed.

(** A number between [2^(k-1)] and [2^k] has [k] binary digits. *)
Lemma digits2_pos_unique (m : positive) (k : Z) :
  2 ^ (k - 1) <= Zpos m < 2 ^ k -> 0 < k -> Zpos (digits2_pos m) = k.
Proof.
  intros [Hlo Hhi] Hk.
  pose proof (digits2_pos_lower m) as Hl.
  pose proof (digits2_pos_upper m) as Hu.
  set (D := Zpos (digits2_pos m)) in *.
  assert (HD : 0 < D) by (unfold D; lia).
  destruct (Z.lt_trichotomy D k) as [Hlt | [Heq | Hgt]]; [|exact Heq|].
  - pose proof (Z.pow_le_mono_r 2 D (k - 1)). lia.
  - pose proof (Z.pow_le_mono_r 2 k (D - 1)). lia.
Qed.

Lemma iter_xO_value (d m : positive) :
  Zpos (Pos.iter xO m d) = Zpos m * 2 ^ Zpos d.
Proof.
  revert m. induction d as [|d IH] using Pos.peano_ind; intros m.
  - cbn [Pos.iter]. rewrite Pos2Z.inj_xO. change (2 ^ 1) with 2. lia.
  - rewrite Pos.iter_succ, Pos2Z.inj_xO, IH, Pos2Z.inj_succ, Z.pow_succ_r by lia.
    lia.
Qed.

Lemma round_nearest_even_bracket (q : Z) (l : location) :
  round_nearest_even q l = q \/ round_nearest_even q l = q + 1.
Proof.
  destruct l as [|[| |]]; simpl; auto.
  destruct (Z.even q); auto.
Qed.

(** Rounding a mantissa [S] of more than 24 digits at exponent [e0]: the
    result is a normal number whose value, in units of [2^e0], lies between
    [S] rounded down and [S] rounded up to 24 digits. *)
Lemma binary_round_aux_bracket (S : positive) (e0 : Z) :
  let D := Zpos (digits2_pos S) in
  let n := D - 24 in
  24 < D -> emin32 <= e0 -> e0 + n + 1 <= 104 ->
  exists (m' : positive) (e' : Z),
    binary_round_aux F32.prec F32.emax false (Zpos S) e0 loc_Exact
      = S754_finite false m' e' /\
    2 ^ 23 <= Zpos m' < 2 ^ 24 /\
    e0 + n <= e' <= e0 + n + 1 /\
    (Zpos S / 2 ^ n) * 2 ^ n <= Zpos m' * 2 ^ (e' - e0)
      <= (Zpos S / 2 ^ n + 1) * 2 ^ n.
Proof.
  cbv zeta. set (D := Zpos (digits2_pos S)). intros HD He0 Hmax.
  set (n := D - 24). assert (Hn : 0 < n) by (unfold n; lia).
  set (q := Zpos S / 2 ^ n).
  assert (Hqlo : 2 ^ 23 <= q).
  { unfold q. apply Z.div_le_lower_bound; [lia|].
    rewrite <- Z.pow_add_r by lia. replace (n + 23) with (D - 1) by (unfold n; lia).
    apply digits2_pos_lower. }
  assert (Hqhi : q < 2 ^ 24).
  { unfold q. apply Z.div_lt_upper_bound; [lia|].
    rewrite <- Z.pow_add_r by lia. replace (n + 24) with D by (unfold n; lia).
    apply digits2_pos_upper. }
  unfold binary_round_aux.
  (* the first shift, by [n] *)
  assert (Hshift : fexp F32.prec F32.emax (Zdigits2 (Zpos S) + e0) - e0 = n).
  { unfold fexp, emin, F32.prec, F32.emax. simpl Zdigits2. fold D.
    unfold emin32, emin, F32.prec, F32.emax in He0. unfold n. lia. }
  unfold shr_fexp at 1. rewrite Hshift. unfold shr.
  destruct n as [|p|p] eqn:Hp; try lia.
  cbn [shr_record_of_loc].
  set (mrs := iter_pos shr_1 p _).
  assert (Hm : shr_m mrs = q).
  { unfold mrs. rewrite iter_pos_shr_m by (cbn; lia). cbn [shr_m].
    rewrite Z.shiftr_div_pow2 by lia. reflexivity. }
  rewrite Hm.
  set (q' := round_nearest_even q (loc_of_shr_record mrs)).
  assert (Hq' : q' = q \/ q' = q + 1) by apply round_nearest_even_bracket.
  (* the second shift: by one when rounding reached 2^24, else none *)
  destruct (Z.eq_dec q' (2 ^ 24)) as [Hcarry | Hnocarry].
  - rewrite Hcarry. exists (2 ^ 23)%positive, (e0 + Zpos p + 1).
    split; [|split; [|split]].
    + unfold shr_fexp, shr, fexp, emin, F32.prec, F32.emax.
      change (Zdigits2 (2 ^ 24)) with 25.
      unfold emin32, emin, F32.prec, F32.emax in He0.
      replace (Z.max (25 + (e0 + Zpos p) - 24) (3 - 128 - 24) - (e0 + Zpos p))
        with 1 by lia.
      cbn [iter_pos shr_1 shr_record_of_loc shr_m].
      change (Z.pow_pos 2 24) with 16777216. cbn [shr_1 shr_m].
      replace (e0 + Zpos p + 1 <=? 128 - 24) with true
        by (symmetry; apply Z.leb_le; lia).
      reflexivity.
    + change (Zpos (2 ^ 23)) with (2 ^ 23). lia.
    + lia.
    + replace (e0 + Zpos p + 1 - e0) with (Z.succ (Zpos p)) by lia.
      rewrite Z.pow_succ_r by lia. change (Zpos (2 ^ 23)) with (2 ^ 23).
      assert (q + 1 = 2 ^ 24) by lia.
      assert (0 < 2 ^ Zpos p) by (apply Z.pow_pos_nonneg; lia).
      nia.
  - assert (Hq'hi : q' < 2 ^ 24) by lia.
    destruct q' as [|m'|m'] eqn:Hq'eq; try lia.
    exists m', (e0 + Zpos p).
    assert (Hd : Zpos (digits2_pos m') = 24).
    { apply digits2_pos_unique; lia. }
    split; [|split; [|split]].
    + unfold shr_fexp, shr, fexp, emin, F32.prec, F32.emax. simpl Zdigits2.
      rewrite Hd. unfold emin32, emin, F32.prec, F32.emax in He0.
      replace (Z.max (24 + (e0 + Zpos p) - 24) (3 - 128 - 24) - (e0 + Zpos p))
        with 0 by lia.
      cbn [shr_record_of_loc shr_m].
      replace (e0 + Zpos p <=? 128 - 24) with true
        by (symmetry; apply Z.leb_le; lia).
      reflexivity.
    + lia.
    + lia.
    + replace (e0 + Zpos p - e0) with (Zpos p) by lia.
      assert (0 < 2 ^ Zpos p) by (apply Z.pow_pos_nonneg; lia).
      nia.
Qed.

(** One increment of a normal number below 2^19: the result is again a
    normal number of at most 2^19, and it is not below the number. *)
Lemma add_step (m : positive) (e : Z) :
  2 ^ 23 <= Zpos m < 2 ^ 24 -> -29 <= e <= -5 ->
  exists (m' : positive) (e' : Z),
    F32.add (S754_finite false m e) F32.lit_0_02 = S754_finite false m' e' /\
    2 ^ 23 <= Zpos m' < 2 ^ 24 /\
    -29 <= e' /\
    (e' <= -5 \/ (e' = -4 /\ Zpos m' = 2 ^ 23)) /\
    Zpos m * 2 ^ (e + 29) <= Zpos m' * 2 ^ (e' + 29).
Proof.
  intros Hm He.
  change F32.lit_0_02 with (S754_finite false 10737418 (-29)).
  unfold F32.add, SFadd. rewrite Z.min_r by lia.
  (* the mantissa of the first operand at exponent -29 *)
  assert (HA : exists A : positive,
             fst (shl_align m e (-29)) = A /\ Zpos A = Zpos m * 2 ^ (e + 29)).
  { unfold shl_align. destruct (-29 - e) as [|d|d] eqn:Hd; try lia.
    - exists m. split; [reflexivity|]. replace (e + 29) with 0 by lia. lia.
    - exists (Pos.iter xO m d). split; [reflexivity|].
      rewrite iter_xO_value. f_equal. f_equal. lia. }
  destruct HA as (A & -> & HA).
  change (fst (shl_align 10737418 (-29) (-29))) with 10737418%positive.
  cbn [cond_Zopp Z.add binary_normalize].
  set (S := (A + 10737418)%positive).
  assert (HS : Zpos S = Zpos m * 2 ^ (e + 29) + 10737418) by (unfold S; lia).
  assert (HK : 1 <= 2 ^ (e + 29) <= 2 ^ 24).
  { split; [|apply Z.pow_le_mono_r; lia].
    pose proof (Z.pow_pos_nonneg 2 (e + 29)). lia. }
  set (K := 2 ^ (e + 29)) in *.
  assert (HSlo : 2 ^ 24 < Zpos S) by nia.
  assert (HShi : Zpos S < 2 ^ 48) by nia.
  set (D := Zpos (digits2_pos S)).
  assert (HD : 24 < D <= 48).
  { pose proof (digits2_pos_lower S) as Hl.
    pose proof (digits2_pos_upper S) as Hu. fold D in Hl, Hu.
    assert (HD0 : 0 < D) by (unfold D; lia).
    split.
    - destruct (Z_lt_le_dec 24 D) as [H | H]; [exact H|].
      pose proof (Z.pow_le_mono_r 2 D 24). lia.
    - destruct (Z_le_gt_dec D 48) as [H | H]; [exact H|].
      pose proof (Z.pow_le_mono_r 2 48 (D - 1)). lia. }
  (* no shift to the left beforehand *)
  unfold binary_round.
  assert (Hal : shl_align S (-29)
                  (fexp F32.prec F32.emax (Zpos (digits2_pos S) + -29)) = (S, -29)).
  { unfold shl_align, fexp, emin, F32.prec, F32.emax. fold D.
    destruct (Z.max (D + -29 - 24) (3 - 128 - 24) - -29) eqn:Hx; try reflexivity.
    lia. }
  rewrite Hal.
  destruct (binary_round_aux_bracket S (-29)) as (m' & e' & Hr & Hm' & He' & Hv).
  { fold D. lia. }
  { unfold emin32, emin, F32.prec, F32.emax. lia. }
  { fold D. lia. }
  fold D in He', Hv. set (n := D - 24) in *.
  assert (Hn : 0 < n <= 24) by (unfold n; lia).
  assert (HP : 0 < 2 ^ n) by (apply Z.pow_pos_nonneg; lia).
  set (q := Zpos S / 2 ^ n) in *.
  assert (Hq : q * 2 ^ n <= Zpos S).
  { unfold q. rewrite Z.mul_comm. apply Z.mul_div_le. lia. }
  assert (Hqlo : 2 ^ 23 <= q).
  { unfold q. apply Z.div_le_lower_bound; [lia|].
    rewrite <- Z.pow_add_r by lia. replace (n + 23) with (D - 1) by (unfold n; lia).
    apply digits2_pos_lower. }
  assert (Hcap : (q + 1) * 2 ^ n <= 2 ^ 48).
  { assert (q < 2 ^ (48 - n)).
    { unfold q. apply Z.div_lt_upper_bound; [lia|].
      rewrite <- Z.pow_add_r by lia. replace (n + (48 - n)) with 48 by lia.
      exact HShi. }
    replace (2 ^ 48) with (2 ^ (48 - n) * 2 ^ n)
      by (rewrite <- Z.pow_add_r by lia; f_equal; lia).
    nia. }
  replace (e' - -29) with (e' + 29) in Hv by lia.
  assert (HE : 0 < 2 ^ (e' + 29)) by (apply Z.pow_pos_nonneg; lia).
  exists m', e'. split; [exact Hr|]. split; [exact Hm'|]. split; [lia|].
  split.
  - assert (Hpow : 2 ^ (e' + 29) <= 2 ^ 25) by nia.
    apply (Z.pow_le_mono_r_iff 2) in Hpow; [|lia|lia].
    destruct (Z.eq_dec e' (-4)) as [-> | Hne]; [|left; lia].
    right. split; [reflexivity|]. change (2 ^ (-4 + 29)) with (2 ^ 25) in *. lia.
  - apply Z.le_trans with (q * 2 ^ n); [|lia].
    destruct (Z_le_gt_dec n (e + 29)) as [Hle | Hgt].
    + assert (HKn : K = 2 ^ (e + 29 - n) * 2 ^ n).
      { unfold K. rewrite <- Z.pow_add_r by lia. f_equal. lia. }
      assert (Zpos m * 2 ^ (e + 29 - n) <= q).
      { unfold q. apply Z.div_le_lower_bound; [lia|]. nia. }
      rewrite HKn. nia.
    + assert (HKn : 2 * K <= 2 ^ n).
      { unfold K. rewrite <- Z.pow_succ_r by lia. apply Z.pow_le_mono_r; lia. }
      nia.
Qed.

(** On normal numbers the order of floats is the order of their values. *)
Lemma leb_of_value (m m' : positive) (e e' : Z) :
  2 ^ 23 <= Zpos m < 2 ^ 24 -> 2 ^ 23 <= Zpos m' < 2 ^ 24 ->
  -29 <= e -> -29 <= e' ->
  Zpos m * 2 ^ (e + 29) <= Zpos m' * 2 ^ (e' + 29) ->
  SFleb (S754_finite false m e) (S754_finite false m' e') = true.
Proof.
  intros Hm Hm' He He' Hv. unfold SFleb, SFcompare.
  assert (HE : 0 < 2 ^ (e' + 29)) by (apply Z.pow_pos_nonneg; lia).
  destruct (Z.compare_spec e e') as [Heq | Hlt | Hgt].
  - subst e'. fold (Pos.compare m m').
    assert (Hle : Zpos m <= Zpos m') by nia.
    destruct (Pos.compare_spec m m') as [_ | _ | Hc]; try reflexivity. lia.
  - reflexivity.
  - exfalso.
    assert (2 * 2 ^ (e' + 29) <= 2 ^ (e + 29)).
    { rewrite <- Z.pow_succ_r by lia. apply Z.pow_le_mono_r; lia. }
    nia.
Qed.

Lemma normal_to_cap_step (x : F32.float) :
  normal_to_cap x ->
  normal_to_cap (F32.add x F32.lit_0_02) /\ f32_le x (F32.add x F32.lit_0_02).
Proof.
  intros (m & e & -> & Hm & He & [Hlow | [-> Htop]]).
  - destruct (add_step m e Hm (conj He Hlow)) as (m' & e' & -> & Hm' & He' & Hc & Hv).
    split.
    + exists m', e'. repeat split; try assumption; lia.
    + apply leb_of_value; assumption.
  - assert (m = 8388608%positive) by (change (2 ^ 23) with 8388608 in Htop; lia).
    subst m. split.
    + exists 8388608%positive, (-4). split; [vm_compute; reflexivity|].
      split; [vm_compute; split; [discriminate | reflexivity]|].
      split; [lia|]. right. split; reflexivity.
    + vm_compute. reflexivity.
Qed.

Lemma cloud_shift_after_normal (k : nat) : normal_to_cap (cloud_shift_after (S k)).
Proof.
  induction k as [|k IH].
  - exists 10737418%positive, (-29). split; [vm_compute; reflexivity|].
    split; [vm_compute; split; [discriminate | reflexivity]|].
    split; [lia|]. left. lia.
  - change (cloud_shift_after (S (S k)))
      with (F32.add (cloud_shift_after (S k)) F32.lit_0_02).
    exact (proj1 (normal_to_cap_step _ IH)).
Qed.

Lemma normal_to_cap_bounds (x : F32.float) :
  normal_to_cap x ->
  f32_finite x = true /\ f32_le F32.zero x /\ f32_le x (F32.of_Z 524288).
Proof.
  intros (m & e & -> & Hm & He & Hc). split; [reflexivity|]. split; [reflexivity|].
  change (F32.of_Z 524288) with (S754_finite false 8388608 (-4)).
  apply leb_of_value; [assumption | lia | assumption | lia |].
  change (Zpos 8388608 * 2 ^ (-4 + 29)) with (2 ^ 48).
  destruct Hc as [Hlow | [-> Htop]].
  - assert (2 ^ (e + 29) <= 2 ^ 24) by (apply Z.pow_le_mono_r; lia).
    assert (0 < 2 ^ (e + 29)) by (apply Z.pow_pos_nonneg; lia).
    change (2 ^ 48) with (2 ^ 24 * 2 ^ 24). nia.
  - rewrite Htop. vm_compute. discriminate.
Qed.

Lemma sorted_cloud_shifts (n : nat) : forall a : nat,
  f32_sorted (map cloud_shift_after (seq a n)).
Proof.
  induction n as [|n IH]; intros a; [exact I|].
  cbn [seq map f32_sorted]. specialize (IH (S a)).
  destruct n as [|n]; [exact I|].
  cbn [seq map] in *. split; [|exact IH].
  destruct a as [|a].
  - reflexivity.
  - exact (proj2 (normal_to_cap_step _ (cloud_shift_after_normal a))).
Qed.

Lemma main_uploads (d : Host.driver) (fuel : nat) :
  Run.uploads (Host.trace (snd (Host.main fuel d Host.world0)))
  = map cloud_shift_after
        (seq 1 (Run.frames_drawn (Host.trace (snd (Host.main fuel d Host.world0))))).
Proof.
  rewrite main_run.
  destruct (Host.c_not (Host.glfwInit_ret d)); [reflexivity|].
  destruct (Host.c_not (Host.glfwCreateWindow_ret d)); [reflexivity|].
  destruct (Host.glew_neq_ok (Host.glewInit_ret d)); [reflexivity|].
  cbv zeta. cbn [snd Host.trace].
  rewrite !uploads_app, !frames_drawn_app.
  destruct (setup_observed d) as (-> & -> & _).
  destruct (main_frames_observed d (Run.frames_run d fuel 0)) as (-> & -> & _).
  destruct (Run.loop_exits d fuel 0);
    cbn [Run.uploads Run.frames_drawn Run.shutdown_calls app];
    rewrite app_nil_r, Nat.add_0_r; reflexivity.
Qed.

(** X14.  The animation scalar never leaves the range from 0 to 2^19: after
    any number of frames it is a finite float (no infinity, no NaN) between
    [0.0f] and [524288.0f]; and at [524288.0f] the increment is absorbed by
    rounding, so from there on the scalar does not change any more.  Every
    value uploaded in a run is therefore finite and at most [524288.0f]. *)
Theorem cloud_shift_bounded (k n : nat) (d : Host.driver) (fuel : nat) :
  (f32_finite (cloud_shift_after k) = true /\
   f32_le F32.zero (cloud_shift_after k) /\
   f32_le (cloud_shift_after k) (F32.of_Z 524288)) /\
  shift_n n (F32.of_Z 524288) = F32.of_Z 524288 /\
  Forall (fun v => f32_finite v = true /\ f32_le v (F32.of_Z 524288))
         (Run.uploads (Host.trace (snd (Host.main fuel d Host.world0)))).
Proof.
  assert (Hk : forall j, f32_finite (cloud_shift_after j) = true /\
                         f32_le F32.zero (cloud_shift_after j) /\
                         f32_le (cloud_shift_after j) (F32.of_Z 524288)).
  { intros [|j]; [repeat split|].
    apply normal_to_cap_bounds, cloud_shift_after_normal. }
  split; [apply Hk|]. split.
  - induction n as [|n IH]; [reflexivity|]. cbn [shift_n].
    change (F32.add (F32.of_Z 524288) F32.lit_0_02) with (F32.of_Z 524288).
    exact IH.
  - rewrite main_uploads. apply Forall_forall. intros v Hv.
    apply in_map_iff in Hv as (j & <- & _). destruct (Hk j) as (H1 & _ & H3).
    split; assumption.
Qed.

(** X15.  The animation scalar never goes down: each frame's value is, as
    floats compare, at least the value of the frame before, so the values
    uploaded in a run are in ascending order. *)
Theorem cloud_shift_monotone (k : nat) (d : Host.driver) (fuel : nat) :
  f32_le (cloud_shift_after k) (cloud_shift_after (S k)) /\
  f32_sorted (Run.uploads (Host.trace (snd (Host.main fuel d Host.world0)))).
Proof.
  split.
  - destruct k as [|k]; [reflexivity|].
    exact (proj2 (normal_to_cap_step _ (cloud_shift_after_normal k))).
  - rewrite main_uploads. apply sorted_cloud_shifts.
Qed.

End ScalarOrder.

(** ** The animation scalar comes to rest *)

Section ScalarRest.

Local Open Scope Z_scope.

Lemma shr_1_fields (mrs : shr_record) :
  0 <= shr_m mrs ->
  shr_1 mrs = Build_shr_record (shr_m mrs / 2) (Z.odd (shr_m mrs))
                               (orb (shr_r mrs) (shr_s mrs)).
Proof.
  destruct mrs as [m r s]. cbn [shr_m shr_r shr_s]. intros Hm.
  destruct m as [|[p|p|]|p]; try lia; cbn [shr_1].
  - reflexivity.
  - f_equal. change (Zpos p~1) with (2 * Zpos p + 1).
    apply (Z.div_unique _ 2 _ 1); lia.
  - f_equal. change (Zpos p~0) with (2 * Zpos p).
    apply (Z.div_unique _ 2 _ 0); lia.
  - reflexivity.
Qed.

(** Whether the lowest [j + 1] bits are all clear. *)
Lemma mod_pow2_succ (S j : Z) :
  0 <= S -> 0 <= j ->
  (S mod 2 ^ (j + 1) =? 0) = negb (Z.odd (S / 2 ^ j)) && (S mod 2 ^ j =? 0).
Proof.
  intros HS Hj.
  assert (HP : 0 < 2 ^ j) by (apply Z.pow_pos_nonneg; lia).
  rewrite Z.pow_add_r, Z.pow_1_r by lia.
  rewrite Z.rem_mul_r by lia.
  pose proof (Z.mod_pos_bound S (2 ^ j) HP) as Hr.
  rewrite Zodd_mod.
  pose proof (Z.mod_pos_bound (S / 2 ^ j) 2 ltac:(lia)) as Hb.
  destruct (Z.eqb_spec (S / 2 ^ j mod 2) 1) as [E | E];
    destruct (Z.eqb_spec (S mod 2 ^ j) 0) as [F | F]; cbn [negb andb];
    apply Z.eqb_neq || apply Z.eqb_eq; nia.
Qed.

Lemma shifted_step (S k : Z) (mrs : shr_record) :
  0 <= S -> 0 <= k -> shifted S k mrs -> shifted S (k + 1) (shr_1 mrs).
Proof.
  intros HS Hk (Hm & H0 & H1).
  assert (HP : 0 < 2 ^ k) by (apply Z.pow_pos_nonneg; lia).
  rewrite shr_1_fields by (rewrite Hm; apply Z.div_pos; lia).
  unfold shifted. cbn [shr_m shr_r shr_s].
  split; [|split].
  - rewrite Hm, Z.div_div, Z.pow_add_r, Z.pow_1_r by lia. reflexivity.
  - intros; lia.
  - intros _. replace (k + 1 - 1) with k by lia. split; [now rewrite Hm|].
    destruct (Z.eq_dec k 0) as [-> | Hk0].
    + destruct (H0 eq_refl) as [-> ->]. rewrite Z.pow_0_r, Z.mod_1_r. reflexivity.
    + destruct (H1 ltac:(lia)) as [-> ->].
      replace k with (k - 1 + 1) at 3 by lia.
      rewrite mod_pow2_succ by lia.
      destruct (Z.odd (S / 2 ^ (k - 1))), (S mod 2 ^ (k - 1) =? 0); reflexivity.
Qed.

Lemma shifted_iter (S : Z) (p : positive) : forall (k : Z) (mrs : shr_record),
  0 <= S -> 0 <= k -> shifted S k mrs ->
  shifted S (k + Zpos p) (iter_pos shr_1 p mrs).
Proof.
  induction p as [p IH|p IH|]; intros k mrs HS Hk H; cbn [iter_pos].
  - replace (k + Zpos p~1) with (k + 1 + Zpos p + Zpos p) by lia.
    apply IH; [lia | lia |]. apply IH; [lia | lia |].
    apply shifted_step; assumption.
  - replace (k + Zpos p~0) with (k + Zpos p + Zpos p) by lia.
    apply IH; [lia | lia |]. apply IH; assumption.
  - apply shifted_step; assumption.
Qed.

(** Rounding a mantissa [S] of [24 + n] digits whose rounded quotient [Q]
    still has 24 digits: the result is [Q] at the exponent raised by [n]. *)
Lemma binary_round_aux_exact (S Q : positive) (e0 n : Z) :
  Zpos (digits2_pos S) = 24 + n -> 0 < n -> emin32 <= e0 -> e0 + n <= 104 ->
  round_nearest_even (Zpos S / 2 ^ n) (shifted_out (Zpos S) n) = Zpos Q ->
  Zpos Q < 2 ^ 24 ->
  binary_round_aux F32.prec F32.emax false (Zpos S) e0 loc_Exact
  = S754_finite false Q (e0 + n).
Proof.
  intros HD Hn He0 Hmax HQ HQhi.
  assert (Hqlo : 2 ^ 23 <= Zpos S / 2 ^ n).
  { apply Z.div_le_lower_bound; [apply Z.pow_pos_nonneg; lia|].
    rewrite <- Z.pow_add_r by lia.
    replace (n + 23) with (Zpos (digits2_pos S) - 1) by lia.
    apply digits2_pos_lower. }
  assert (HQlo : 2 ^ 23 <= Zpos Q).
  { rewrite <- HQ.
    destruct (round_nearest_even_bracket (Zpos S / 2 ^ n) (shifted_out (Zpos S) n))
      as [-> | ->]; lia. }
  unfold binary_round_aux.
  assert (Hshift : fexp F32.prec F32.emax (Zdigits2 (Zpos S) + e0) - e0 = n).
  { unfold fexp, emin, F32.prec, F32.emax. simpl Zdigits2. rewrite HD.
    unfold emin32, emin, F32.prec, F32.emax in He0. lia. }
  unfold shr_fexp at 1. rewrite Hshift. unfold shr.
  destruct n as [|p|p] eqn:Hp; try lia.
  cbn [shr_record_of_loc].
  pose proof (shifted_iter (Zpos S) p 0 (Build_shr_record (Zpos S) false false)
                ltac:(lia) ltac:(lia)) as Hsh.
  cbn [Z.add] in Hsh.
  destruct Hsh as (Hm & _ & Hrs).
  { split; [cbn [shr_m]; rewrite Z.pow_0_r, Z.div_1_r; reflexivity|].
    split; [intros _; split; reflexivity | intros; lia]. }
  destruct (Hrs ltac:(lia)) as [Hr Hs].
  set (mrs := iter_pos shr_1 p _) in *.
  assert (Hloc : loc_of_shr_record mrs = shifted_out (Zpos S) (Zpos p)).
  { unfold shifted_out. destruct mrs as [m0 r0 s0]. cbn [shr_r shr_s] in Hr, Hs.
    rewrite <- Hr, <- Hs. reflexivity. }
  rewrite Hm, Hloc, HQ.
  assert (Hd : Zpos (digits2_pos Q) = 24) by (apply digits2_pos_unique; lia).
  unfold shr_fexp, shr, fexp, emin, F32.prec, F32.emax. simpl Zdigits2.
  rewrite Hd. unfold emin32, emin, F32.prec, F32.emax in He0.
  replace (Z.max (24 + (e0 + Zpos p) - 24) (3 - 128 - 24) - (e0 + Zpos p))
    with 0 by lia.
  cbn [shr_record_of_loc shr_m].
  replace (e0 + Zpos p <=? 128 - 24) with true by (symmetry; apply Z.leb_le; lia).
  reflexivity.
Qed.

(** One increment inside a binade: when the exponent stays, the mantissa
    grows by the increment rounded to the nearest unit of the last place. *)
Lemma add_exact (M e delta : Z) :
  2 ^ 23 <= M -> M + delta < 2 ^ 24 -> -28 <= e <= -5 -> 0 <= delta ->
  (2 * delta - 1) * 2 ^ (e + 28) < 10737418 < (2 * delta + 1) * 2 ^ (e + 28) ->
  F32.add (nf M e) F32.lit_0_02 = nf (M + delta) e.
Proof.
  intros HM HMd He Hdelta Hc. unfold nf.
  change F32.lit_0_02 with (S754_finite false 10737418 (-29)).
  unfold F32.add, SFadd. rewrite Z.min_r by lia.
  set (n := e + 29). assert (Hn : 1 <= n <= 24) by (unfold n; lia).
  set (H := 2 ^ (e + 28)) in *.
  assert (HH : 0 < H) by (apply Z.pow_pos_nonneg; lia).
  assert (HP : 2 ^ n = 2 * H).
  { unfold n, H. replace (e + 29) with (Z.succ (e + 28)) by lia.
    apply Z.pow_succ_r. lia. }
  assert (HA : exists A : positive,
             fst (shl_align (Z.to_pos M) e (-29)) = A /\ Zpos A = M * 2 ^ n).
  { unfold shl_align. destruct (-29 - e) as [|d|d] eqn:Hd; try lia.
    exists (Pos.iter xO (Z.to_pos M) d). split; [reflexivity|].
    rewrite iter_xO_value, Z2Pos.id by lia. f_equal. f_equal. unfold n. lia. }
  destruct HA as (A & -> & HA).
  change (fst (shl_align 10737418 (-29) (-29))) with 10737418%positive.
  cbn [cond_Zopp Z.add binary_normalize].
  set (S := (A + 10737418)%positive).
  assert (HS : Zpos S = 2 * M * H + 10737418) by (unfold S; lia).
  assert (HSlo : 2 ^ 23 * 2 ^ n <= Zpos S) by nia.
  assert (HShi : Zpos S < 2 ^ 24 * 2 ^ n) by nia.
  assert (HD : Zpos (digits2_pos S) = 24 + n).
  { apply digits2_pos_unique; [|lia].
    replace (24 + n - 1) with (23 + n) by lia. rewrite !Z.pow_add_r by lia. lia. }
  unfold binary_round.
  assert (Hal : shl_align S (-29)
                  (fexp F32.prec F32.emax (Zpos (digits2_pos S) + -29)) = (S, -29)).
  { unfold shl_align, fexp, emin, F32.prec, F32.emax. rewrite HD.
    destruct (Z.max (24 + n + -29 - 24) (3 - 128 - 24) - -29) eqn:Hx;
      try reflexivity. lia. }
  rewrite Hal.
  rewrite (binary_round_aux_exact S (Z.to_pos (M + delta)) (-29) n).
  - f_equal. unfold n. lia.
  - exact HD.
  - lia.
  - unfold emin32, emin, F32.prec, F32.emax. lia.
  - lia.
  - rewrite Z2Pos.id by lia. unfold shifted_out.
    replace (n - 1) with (e + 28) by (unfold n; lia). fold H. rewrite HP.
    destruct (Z.lt_trichotomy 10737418 (2 * delta * H)) as [Hlt | [Heq | Hgt]].
    + (* above the lower unit by more than half: rounded up *)
      assert (Hq : Zpos S / (2 * H) = M + delta - 1).
      { symmetry. apply (Z.div_unique _ _ _ (10737418 - 2 * (delta - 1) * H)); nia. }
      assert (Hh : Zpos S / H = 2 * M + 2 * delta - 1).
      { symmetry. apply (Z.div_unique _ _ _ (10737418 - (2 * delta - 1) * H)); nia. }
      assert (Hr : Zpos S mod H = 10737418 - (2 * delta - 1) * H).
      { symmetry. apply (Z.mod_unique _ _ (2 * M + 2 * delta - 1)); nia. }
      rewrite Hq, Hh, Hr.
      replace (Z.odd (2 * M + 2 * delta - 1)) with true
        by (symmetry; rewrite Z.odd_sub, Z.odd_add, !Z.odd_mul; reflexivity).
      replace (10737418 - (2 * delta - 1) * H =? 0) with false
        by (symmetry; apply Z.eqb_neq; lia).
      cbn [negb loc_of_shr_record round_nearest_even]. lia.
    + (* on the unit: exact *)
      assert (Hq : Zpos S / (2 * H) = M + delta).
      { symmetry. apply (Z.div_unique _ _ _ 0); nia. }
      assert (Hh : Zpos S / H = 2 * M + 2 * delta).
      { symmetry. apply (Z.div_unique _ _ _ 0); nia. }
      assert (Hr : Zpos S mod H = 0).
      { symmetry. apply (Z.mod_unique _ _ (2 * M + 2 * delta)); nia. }
      rewrite Hq, Hh, Hr.
      replace (Z.odd (2 * M + 2 * delta)) with false
        by (symmetry; rewrite Z.odd_add, !Z.odd_mul; reflexivity).
      reflexivity.
    + (* above the unit by less than half: rounded down *)
      assert (Hq : Zpos S / (2 * H) = M + delta).
      { symmetry. apply (Z.div_unique _ _ _ (10737418 - 2 * delta * H)); nia. }
      assert (Hh : Zpos S / H = 2 * M + 2 * delta).
      { symmetry. apply (Z.div_unique _ _ _ (10737418 - 2 * delta * H)); nia. }
      assert (Hr : Zpos S mod H = 10737418 - 2 * delta * H).
      { symmetry. apply (Z.mod_unique _ _ (2 * M + 2 * delta)); nia. }
      rewrite Hq, Hh, Hr.
      replace (Z.odd (2 * M + 2 * delta)) with false
        by (symmetry; rewrite Z.odd_add, !Z.odd_mul; reflexivity).
      replace (10737418 - 2 * delta * H =? 0) with false
        by (symmetry; apply Z.eqb_neq; lia).
      reflexivity.
  - rewrite Z2Pos.id by lia. exact HMd.
Qed.

Lemma shift_n_add (a b : nat) (x : F32.float) :
  shift_n (a + b) x = shift_n b (shift_n a x).
Proof.
  revert x. induction a as [|a IH]; intros x; [reflexivity|].
  cbn [Nat.add shift_n]. apply IH.
Qed.

(** [j] increments inside a binade. *)
Lemma walk (e delta : Z) (j : N) : forall M : Z,
  2 ^ 23 <= M -> M + Z.of_N j * delta < 2 ^ 24 -> -28 <= e <= -5 -> 0 <= delta ->
  (2 * delta - 1) * 2 ^ (e + 28) < 10737418 < (2 * delta + 1) * 2 ^ (e + 28) ->
  shift_n (N.to_nat j) (nf M e) = nf (M + Z.of_N j * delta) e.
Proof.
  induction j as [|j IH] using N.peano_ind; intros M HM HMj He Hd Hc.
  - cbn [N.to_nat shift_n]. f_equal. lia.
  - rewrite N2Nat.inj_succ. cbn [shift_n].
    rewrite N2Z.inj_succ in HMj.
    rewrite (add_exact M e delta) by (try assumption; nia).
    rewrite IH by (try assumption; nia).
    f_equal. rewrite N2Z.inj_succ. lia.
Qed.

Lemma follow_leg_sound (l : leg) (st st' : N * Z * Z) :
  follow_leg l st = Some st' -> at_frame st -> at_frame st'.
Proof.
  destruct st as [[k M] e]. destruct l as [delta j|]; cbn [follow_leg at_frame].
  - destruct (_ && _) eqn:Hok; [|discriminate].
    intros [= <-] Hat. cbn [at_frame].
    repeat (apply andb_true_iff in Hok as [Hok ?]).
    rewrite N2Nat.inj_add, <- (shift_n_after (N.to_nat j) (N.to_nat k)), Hat.
    apply walk; lia.
  - destruct (F32.add (nf M e) F32.lit_0_02) as [| | |[|] M' e'] eqn:Hadd;
      try discriminate.
    intros [= <-] Hat. cbn [at_frame].
    rewrite N.add_1_r, N2Nat.inj_succ.
    cbn [cloud_shift_after]. rewrite Hat, Hadd. reflexivity.
Qed.

Lemma follow_sound (ls : list leg) : forall st st' : N * Z * Z,
  follow ls st = Some st' -> at_frame st -> at_frame st'.
Proof.
  induction ls as [|l ls IH]; intros st st'; cbn [follow].
  - intros [= <-]. auto.
  - destruct (follow_leg l st) as [st1|] eqn:Hl; [|discriminate].
    intros Hf Hat. apply (IH st1 st' Hf).
    apply (follow_leg_sound l st st1 Hl Hat).
Qed.

Lemma way_followed :
  follow way_to_rest (1%N, 10737418, -29) = Some (22918662%N, 16777215, -5).
Proof. vm_compute. reflexivity. Qed.

Lemma rest_is_kept (n : nat) : shift_n n (F32.of_Z 524288) = F32.of_Z 524288.
Proof.
  induction n as [|n IH]; [reflexivity|]. cbn [shift_n].
  change (F32.add (F32.of_Z 524288) F32.lit_0_02) with (F32.of_Z 524288).
  exact IH.
Qed.

Lemma last_frame_below_rest :
  cloud_shift_after (N.to_nat 22918662) = nf 16777215 (-5).
Proof.
  apply (follow_sound way_to_rest (1%N, 10737418, -29) (22918662%N, 16777215, -5)
           way_followed).
  unfold at_frame. vm_compute. reflexivity.
Qed.

Lemma way_followed_to_rest :
  follow (way_to_rest ++ [Hop]) (1%N, 10737418, -29)
  = Some (frames_to_rest, 8388608, -4).
Proof. vm_compute. reflexivity. Qed.

Lemma rest_value : nf 8388608 (-4) = F32.of_Z 524288.
Proof. reflexivity. Qed.

Lemma arrival_at_rest :
  cloud_shift_after (N.to_nat frames_to_rest) = F32.of_Z 524288.
Proof.
  rewrite <- rest_value.
  apply (follow_sound (way_to_rest ++ [Hop]) (1%N, 10737418, -29)
           (frames_to_rest, 8388608, -4) way_followed_to_rest).
  unfold at_frame. vm_compute. reflexivity.
Qed.

Lemma cloud_shift_after_succ (k : nat) :
  cloud_shift_after (S k) = F32.add (cloud_shift_after k) F32.lit_0_02.
Proof. reflexivity. Qed.

(** X16.  The animation comes to rest.  After 22918662 frames the scalar is
    16777215 * 2^-5 = 524287.96875; the next frame takes it to 524288, and
    there it stays: from frame 22918663 on, every frame of every run uploads
    [524288.0f], so the clouds no longer move. *)
Theorem cloud_shift_comes_to_rest :
  cloud_shift_after (N.to_nat 22918662) = nf 16777215 (-5) /\
  (forall k : nat,
     (N.to_nat frames_to_rest <= k)%nat ->
     cloud_shift_after k = F32.of_Z 524288) /\
  (forall (d : Host.driver) (fuel i : nat) (v : F32.float),
     (N.to_nat frames_to_rest <= S i)%nat ->
     nth_error (Run.uploads (Host.trace (snd (Host.main fuel d Host.world0)))) i
       = Some v ->
     v = F32.of_Z 524288).
Proof.
  assert (Hrest : forall k : nat,
            (N.to_nat frames_to_rest <= k)%nat ->
            cloud_shift_after k = F32.of_Z 524288).
  { intros k Hk. set (K := N.to_nat frames_to_rest) in *.
    replace k with (K + (k - K))%nat by lia.
    rewrite <- shift_n_after. unfold K. rewrite arrival_at_rest.
    apply rest_is_kept. }
  split; [exact last_frame_below_rest|]. split; [exact Hrest|].
  intros d fuel i v Hi Hv. rewrite main_uploads in Hv.
  rewrite nth_error_map in Hv.
  destruct (nth_error (seq 1 _) i) as [f|] eqn:Hf; [|discriminate].
  injection Hv as <-.
  assert (Hfi : f = S i).
  { pose proof (nth_error_nth _ _ 0%nat Hf) as Hn.
    assert (Hlen : (i < List.length (seq 1
               (Run.frames_drawn
                  (Host.trace (snd (Host.main fuel d Host.world0))))))%nat).
    { apply nth_error_Some. rewrite Hf. discriminate. }
    rewrite length_seq in Hlen. rewrite seq_nth in Hn by exact Hlen. lia. }
  subst f. apply Hrest. exact Hi.
Qed.

(** X16 at the frame of arrival. *)
Lemma cloud_shift_comes_to_rest_witness :
  (N.to_nat frames_to_rest <= N.to_nat frames_to_rest)%nat /\
  cloud_shift_after (N.to_nat frames_to_rest) = F32.of_Z 524288.
Proof.
  split; [apply le_n|].
  exact (proj1 (proj2 cloud_shift_comes_to_rest) (N.to_nat frames_to_rest)
           (le_n (N.to_nat frames_to_rest))).
Defined.

End ScalarRest.
